(** * Lens402: the payment-gated transfers route and the payment script

    A shallow embedding of the JavaScript sources

    - [src/routes/transfers.js]  (the Express route [GET /api/transfers]),
    - [send-payment.js]          (the script that sends a USDC payment),

    together with a model of the payment middleware the route is mounted
    behind ([../middleware/payment.js], which is not part of the sources at
    hand and is modelled from the specification).

    JavaScript values are an inductive type with the language's truthiness;
    objects used as maps ([req.query], the [queryParams] handed to the
    provider, the verified-payment cache) are finite maps; effects (ledger
    reads, cache writes, provider calls, log lines) are recorded in a trace by
    a small state-and-trace monad. *)

From Stdlib Require Import ZArith String Ascii List Bool Lia DecimalString HexString.
From Stdlib Require DecimalPos.
From stdpp Require Import base option strings gmap list.

Open Scope string_scope.
Open Scope Z_scope.

Set Warnings "-register-all".

(** ** JavaScript values and the built-ins the sources use *)

Module Js.

Inductive JsVal : Type :=
| JUndefined
| JNull
| JBool (b : bool)
| JNum (n : Z)                       (* an integral Number *)
| JNaN
| JStr (s : string)
| JArr (elems : list JsVal)
| JObj (fields : list (string * JsVal)).

Inductive JsError : Type :=
| TypeError (msg : string)
| ReferenceError (ident : string)
| RangeError (msg : string)
| SyntaxError (msg : string)
| Failure (reason : string).          (* a rejection raised by a collaborator *)

(** The outcome of evaluating an expression or a statement list. *)
Inductive Completion (A : Type) : Type :=
| Normal (a : A)
| Throw (e : JsError).
Arguments Normal {A} a.
Arguments Throw {A} e.

Definition cbind {A B} (c : Completion A) (k : A -> Completion B) : Completion B :=
  match c with
  | Normal a => k a
  | Throw e => Throw e
  end.

#[global] Instance Completion_ret : MRet Completion := @Normal.
#[global] Instance Completion_bind : MBind Completion := fun A B k c => cbind c k.

(** ToBoolean. *)
Definition truthy (v : JsVal) : bool :=
  match v with
  | JUndefined | JNull | JNaN => false
  | JBool b => b
  | JNum n => negb (n =? 0)
  | JStr s => negb (String.eqb s "")
  | JArr _ | JObj _ => true
  end.

(** [a || b] and [a && b] return one of their operands. *)
Definition jsOr (a b : JsVal) : JsVal := if truthy a then a else b.
Definition jsAnd (a b : JsVal) : JsVal := if truthy a then b else a.

(** Reading a key of an object used as a map: a missing key is [undefined]. *)
Definition prop (o : gmap string JsVal) (k : string) : JsVal :=
  default JUndefined (o !! k).

Fixpoint assoc (k : string) (fields : list (string * JsVal)) : JsVal :=
  match fields with
  | [] => JUndefined
  | (k', v) :: rest => if String.eqb k k' then v else assoc k rest
  end.

Definition hasField (k : string) (v : JsVal) : bool :=
  match v with
  | JObj fields => existsb (fun kv => String.eqb k (fst kv)) fields
  | _ => false
  end.

(** [v.k]: a TypeError on [undefined] and [null]; the primitives and arrays
    have none of the keys the sources read. *)
Definition member (v : JsVal) (k : string) : Completion JsVal :=
  match v with
  | JUndefined | JNull =>
      Throw (TypeError ("Cannot read properties of undefined (reading '" ++ k ++ "')"))
  | JObj fields => Normal (assoc k fields)
  | _ => Normal JUndefined
  end.

(** [v?.k] *)
Definition optMember (v : JsVal) (k : string) : JsVal :=
  match v with
  | JObj fields => assoc k fields
  | _ => JUndefined
  end.

(** White space of the ASCII range (TAB, LF, VT, FF, CR, SP). The white
    space outside that range (U+00A0, U+FEFF, U+2028 and the like) is not
    recognised: [trimStart], [trimEnd], [trim], [parseInt] and
    [stringToBigInt] are the built-ins on ASCII text ([isAscii]), and what is
    proved of the sources through them is stated for such text. *)
Definition isWhiteSpace (c : ascii) : bool :=
  let n := N_of_ascii c in
  ((9 <=? n) && (n <=? 13))%N || (n =? 32)%N.

Fixpoint trimStart (s : string) : string :=
  match s with
  | String c rest => if isWhiteSpace c then trimStart rest else s
  | EmptyString => EmptyString
  end.

Fixpoint trimEnd (s : string) : string :=
  match s with
  | String c rest =>
      let rest' := trimEnd rest in
      if isWhiteSpace c && String.eqb rest' "" then "" else String c rest'
  | EmptyString => EmptyString
  end.

Definition trim (s : string) : string := trimEnd (trimStart s).

(** [s.split(sep)] for a one-character separator. *)
Fixpoint split (sep : ascii) (s : string) : list string :=
  match s with
  | EmptyString => [""]
  | String c rest =>
      if Ascii.eqb c sep then "" :: split sep rest
      else match split sep rest with
           | [] => [String c ""]
           | piece :: pieces => String c piece :: pieces
           end
  end.

Definition digitValue (c : ascii) : option Z :=
  let n := Z.of_N (N_of_ascii c) in
  if (48 <=? n) && (n <=? 57) then Some (n - 48)
  else if (97 <=? n) && (n <=? 122) then Some (n - 87)
  else if (65 <=? n) && (n <=? 90) then Some (n - 55)
  else None.

(** The longest prefix of digits of the radix, read as a number; [None] when
    the prefix is empty. The second component is what follows the prefix. *)
Fixpoint digits (radix : Z) (acc : option Z) (s : string) : option Z * string :=
  match s with
  | String c rest =>
      match digitValue c with
      | Some d =>
          if d <? radix then digits radix (Some (radix * default 0 acc + d)) rest
          else (acc, s)
      | None => (acc, s)
      end
  | EmptyString => (acc, s)
  end.

Definition decimal (n : Z) : string := NilZero.string_of_int (Z.to_int n).

Definition lowerChar (c : ascii) : ascii :=
  let n := N_of_ascii c in
  if ((65 <=? n) && (n <=? 90))%N then ascii_of_N (n + 32) else c.

(** [s.toLowerCase()] on the ASCII range. *)
Fixpoint toLowerCase (s : string) : string :=
  match s with
  | String c rest => String (lowerChar c) (toLowerCase rest)
  | EmptyString => EmptyString
  end.

(** ToString. Array elements are joined by a comma, [null] and [undefined]
    elements giving the empty string. *)
Fixpoint toString (v : JsVal) : string :=
  match v with
  | JUndefined => "undefined"
  | JNull => "null"
  | JBool true => "true"
  | JBool false => "false"
  | JNum n => decimal n
  | JNaN => "NaN"
  | JStr s => s
  | JArr elems =>
      (fix join (l : list JsVal) : string :=
         match l with
         | [] => ""
         | x :: rest =>
             let sx := match x with JUndefined | JNull => "" | _ => toString x end in
             match rest with
             | [] => sx
             | _ => sx ++ "," ++ join rest
             end
         end) elems
  | JObj _ => "[object Object]"
  end.

(** [parseInt(v, 10)]: leading white space is skipped, one sign is read, then
    the longest run of decimal digits; no digit gives [NaN]. The Number is
    kept as the exact integer: this is the built-in's result for an integer
    of magnitude up to 2^53 (beyond, the built-in rounds to a double, up to
    Infinity), and [-0] is not told apart from [0]. *)
Definition parseInt (v : JsVal) : JsVal :=
  let s := trimStart (toString v) in
  let '(negative, s) :=
    match s with
    | String "-" rest => (true, rest)
    | String "+" rest => (false, rest)
    | _ => (false, s)
    end in
  match fst (digits 10 None s) with
  | Some n => JNum (if negative then - n else n)
  | None => JNaN
  end.

(** [v[0]] *)
Definition first (v : JsVal) : Completion JsVal :=
  match v with
  | JUndefined | JNull => Throw (TypeError "Cannot read properties of undefined (reading '0')")
  | JArr (x :: _) => Normal x
  | JStr (String c _) => Normal (JStr (String c ""))
  | JObj fields => Normal (assoc "0" fields)
  | _ => Normal JUndefined
  end.

(** [v === s] and [v === n] against a string and a number. *)
Definition isString (v : JsVal) (s : string) : bool :=
  match v with JStr x => String.eqb x s | _ => false end.
Definition isNumber (v : JsVal) (n : Z) : bool :=
  match v with JNum x => x =? n | _ => false end.

Definition wholeNumber (radix : Z) (s : string) : option Z :=
  match digits radix None s with
  | (Some n, EmptyString) => Some n
  | _ => None
  end.

(** StringToBigInt: the trimmed text is empty (zero), a decimal literal with
    an optional sign, or an unsigned literal with prefix 0x, 0o or 0b. *)
Definition stringToBigInt (s : string) : option Z :=
  match trim s with
  | EmptyString => Some 0
  | String "0" (String "x" rest) | String "0" (String "X" rest) => wholeNumber 16 rest
  | String "0" (String "o" rest) | String "0" (String "O" rest) => wholeNumber 8 rest
  | String "0" (String "b" rest) | String "0" (String "B" rest) => wholeNumber 2 rest
  | String "-" rest => Z.opp <$> wholeNumber 10 rest
  | String "+" rest => wholeNumber 10 rest
  | t => wholeNumber 10 t
  end.

(** [BigInt(v)] *)
Definition BigInt (v : JsVal) : Completion Z :=
  match v with
  | JUndefined | JNull => Throw (TypeError "Cannot convert to a BigInt")
  | JBool b => Normal (if b then 1 else 0)
  | JNum n => Normal n
  | JNaN => Throw (RangeError "The number NaN cannot be converted to a BigInt")
  | JStr _ | JArr _ | JObj _ =>
      match stringToBigInt (toString v) with
      | Some n => Normal n
      | None => Throw (SyntaxError "Cannot convert to a BigInt")
      end
  end.

(** [n.toString(16)] of a BigInt. *)
Definition toString16 (n : Z) : string :=
  match n with
  | Z0 => "0"
  | Zpos p => HexString.Raw.of_pos p ""
  | Zneg p => "-" ++ HexString.Raw.of_pos p ""
  end.

Fixpoint repeatChar (n : nat) (c : ascii) : string :=
  match n with
  | O => EmptyString
  | S k => String c (repeatChar k c)
  end.

(** [s.padStart(width, c)] for a one-character filler. *)
Definition padStart (width : nat) (c : ascii) (s : string) : string :=
  repeatChar (width - String.length s) c ++ s.

(** [s.slice(k)] for a start index inside [0, length]. *)
Fixpoint slice (k : nat) (s : string) : string :=
  match k, s with
  | S k', String _ rest => slice k' rest
  | _, _ => s
  end.

(** Text in the ASCII range, on which the white space of [isWhiteSpace] is
    all the white space there is. *)
Fixpoint isAscii (s : string) : bool :=
  match s with
  | String c rest => (N_of_ascii c <? 128)%N && isAscii rest
  | EmptyString => true
  end.

(** Two characters that are the same letter: equal, or one the capital
    (A to Z) of the other. *)
Definition sameLetter (x y : ascii) : Prop :=
  x = y \/
  ((65 <= N_of_ascii x <= 90)%N /\ N_of_ascii y = (N_of_ascii x + 32)%N) \/
  ((65 <= N_of_ascii y <= 90)%N /\ N_of_ascii x = (N_of_ascii y + 32)%N).

(** Two texts that differ at most in the case of their letters. *)
Inductive equalIgnoringCase : string -> string -> Prop :=
| equalIgnoringCase_empty : equalIgnoringCase "" ""
| equalIgnoringCase_letter (x y : ascii) (s t : string) :
    sameLetter x y -> equalIgnoringCase s t ->
    equalIgnoringCase (String x s) (String y t).

(** How often a character occurs in a string, and whether it does. *)
Fixpoint occurrences (c : ascii) (s : string) : nat :=
  match s with
  | String x rest => (if Ascii.eqb x c then 1 else 0) + occurrences c rest
  | EmptyString => 0
  end.

(** The first and the last character of a string. *)
Definition firstChar (s : string) : option ascii :=
  match s with
  | String c _ => Some c
  | EmptyString => None
  end.

Fixpoint lastChar (s : string) : option ascii :=
  match s with
  | String c EmptyString => Some c
  | String _ rest => lastChar rest
  | EmptyString => None
  end.

(** The number a run of decimal digits denotes, most significant first,
    continuing from [acc]. *)
Fixpoint uintValue (acc : Z) (d : Decimal.uint) : Z :=
  match d with
  | Decimal.Nil => acc
  | Decimal.D0 l => uintValue (10 * acc + 0) l
  | Decimal.D1 l => uintValue (10 * acc + 1) l
  | Decimal.D2 l => uintValue (10 * acc + 2) l
  | Decimal.D3 l => uintValue (10 * acc + 3) l
  | Decimal.D4 l => uintValue (10 * acc + 4) l
  | Decimal.D5 l => uintValue (10 * acc + 5) l
  | Decimal.D6 l => uintValue (10 * acc + 6) l
  | Decimal.D7 l => uintValue (10 * acc + 7) l
  | Decimal.D8 l => uintValue (10 * acc + 8) l
  | Decimal.D9 l => uintValue (10 * acc + 9) l
  end.

End Js.

(** ** Data model, collaborators and effects *)

Module Core.
Import Js.

(** Modelled from the spec: the environments a requirement can name (the
    middleware's configuration is not among the sources); the spec asks for
    a test network and a production network. *)
Inductive Network : Type := TestNetwork | ProductionNetwork.

(** Modelled from the spec: PaymentRequirement of the data model (the
    middleware that builds it is missing). Amounts are counted in the
    smallest unit of the token, the canonical unit they are compared in. *)
Record PaymentRequirement : Type := {
  recipientAddress : string;
  minimumAmount : Z;
  tolerance : Z;
  network : Network;
  tokenContract : string
}.

(** Modelled from the spec: VerificationVerdict of the data model, as the
    tagged variant the design notes ask for (the verifier is missing). The
    two successful variants carry amount, timestamp and transaction hash. *)
Inductive VerificationVerdict : Type :=
| Verified (amount timestamp : Z) (transactionHash : string)
| DevModeBypass (amount timestamp : Z) (transactionHash : string)
| NotFound
| Pending
| WrongRecipient
| InsufficientAmount
| TransactionFailed.

(** Modelled from the spec: the verdicts the cache may hold (section 4.4 and
    the design notes): the two successful variants. *)
Definition cacheEligible (v : VerificationVerdict) : bool :=
  match v with
  | Verified _ _ _ | DevModeBypass _ _ _ => true
  | _ => false
  end.

(** Modelled from the spec: the execution status the Ledger Query Adapter
    reports (the adapter is an external collaborator). *)
Inductive ExecutionStatus : Type := Succeeded | Failed.

(** Modelled from the spec: the token transfer a transaction effected, as
    the adapter reports it: sender, recipient, token contract, amount. *)
Record TransferEvent : Type := {
  sender : string;
  recipient : string;
  token : string;
  amount : Z
}.

(** Modelled from the spec: what the adapter's [getTransaction] returns for
    a transaction the ledger has: finality, execution status, the transfer
    (if any) and the timestamp. *)
Record Transaction : Type := {
  finalized : bool;
  status : ExecutionStatus;
  transferEvent : option TransferEvent;
  timestamp : Z
}.

(** Modelled from the spec: VerifiedPaymentCacheEntry of the data model (the
    cache is missing from the sources). *)
Record CacheEntry : Type := {
  verdict : VerificationVerdict;
  createdAt : Z
}.

(** The part of an Express request the route reads: the headers (names in
    lower case, as Node delivers them), the parsed query string, and the
    [payment] the middleware attaches. *)
Record Request : Type := {
  headers : gmap string string;
  query : gmap string JsVal;
  payment : JsVal
}.

(** What a middleware or handler does with the response object: send a JSON
    body under a status, or hand an error to [next]. *)
Inductive Response : Type :=
| Json (statusCode : Z) (body : JsVal)
| NextError (e : JsError).

Definition statusOf (r : Response) : option Z :=
  match r with
  | Json statusCode _ => Some statusCode
  | NextError _ => None
  end.

Definition bodyOf (r : Response) : JsVal :=
  match r with
  | Json _ body => body
  | NextError _ => JUndefined
  end.

(** The collaborators a request meets: the ledger behind the adapter's
    [getTransaction], the data provider behind [getAssetTransfers], and the
    clock. *)
Record World : Type := {
  ledger : string -> Network -> option Transaction;
  provider : gmap string JsVal -> Completion JsVal;
  clock : Z
}.

Inductive Event : Type :=
| LedgerQuery (hash : string) (net : Network)
| CachePut (hash : string) (v : VerificationVerdict)
| ProviderCall (queryParams : gmap string JsVal)
| LogInfo (msg : string).

(** Computations that read the world, update the cache and leave a trace. *)
Definition Eff (A : Type) : Type :=
  World -> gmap string CacheEntry -> A * gmap string CacheEntry * list Event.

Definition eret {A} (a : A) : Eff A := fun _ c => (a, c, []).

Definition ebind {A B} (m : Eff A) (k : A -> Eff B) : Eff B :=
  fun w c =>
    let '(a, c1, t1) := m w c in
    let '(b, c2, t2) := k a w c1 in
    (b, c2, (t1 ++ t2)%list).

#[global] Instance Eff_ret : MRet Eff := @eret.
#[global] Instance Eff_bind : MBind Eff := fun A B k m => ebind m k.

Definition getTransaction (hash : string) (net : Network) : Eff (option Transaction) :=
  fun w c => (ledger w hash net, c, [LedgerQuery hash net]).

Definition cacheGet (hash : string) : Eff (option CacheEntry) :=
  fun _ c => (c !! hash, c, []).

Definition cachePut (hash : string) (v : VerificationVerdict) : Eff unit :=
  fun w c => (tt, <[hash := {| verdict := v; createdAt := clock w |}]> c, [CachePut hash v]).

Definition now : Eff Z := fun w c => (clock w, c, []).

Definition getAssetTransfers (queryParams : gmap string JsVal) : Eff (Completion JsVal) :=
  fun w c => (provider w queryParams, c, [ProviderCall queryParams]).

Definition logInfo (msg : string) : Eff unit := fun _ c => (tt, c, [LogInfo msg]).

Definition resultOf {A} (r : A * gmap string CacheEntry * list Event) : A := r.1.1.
Definition cacheOf {A} (r : A * gmap string CacheEntry * list Event) : gmap string CacheEntry := r.1.2.
Definition traceOf {A} (r : A * gmap string CacheEntry * list Event) : list Event := r.2.

Definition isLedgerQuery (e : Event) : bool :=
  match e with LedgerQuery _ _ => true | _ => false end.
Definition isProviderCall (e : Event) : bool :=
  match e with ProviderCall _ => true | _ => false end.

End Core.

(** ** The payment middleware *)

Module Payment.
Import Js Core.

(** The reserved proof value of development mode, and the header (in lower
    case) that carries the proof. *)
Definition bypassToken : string := "demo".
Definition proofHeader : string := "x-payment-hash".

(** The argument of [paymentRequired], as the route passes it. *)
Record Options : Type := { price : string }.

(** Modelled from the spec: the configuration the gate is constructed with
    ([../middleware/payment.js] and its configuration are missing): the
    development-mode flag, the requirement of the route, the human
    instructions of the challenge, and the 4xx status (402 or 400) a
    rejection reason is mapped to. *)
Record GateConfig : Type := {
  developmentMode : bool;
  requirement : PaymentRequirement;
  instructions : JsVal;
  rejectionStatus : VerificationVerdict -> Z
}.

(** Modelled from the spec: how the challenge names the network; the test
    network is the one the route's information page names. *)
Definition networkName (n : Network) : string :=
  match n with
  | TestNetwork => "Solana-Devnet"
  | ProductionNetwork => "Solana-Mainnet"
  end.

(** Modelled from the spec: the specific reason a rejection carries. *)
Definition verdictName (v : VerificationVerdict) : string :=
  match v with
  | Verified _ _ _ => "Verified"
  | DevModeBypass _ _ _ => "DevModeBypass"
  | NotFound => "NotFound"
  | Pending => "Pending"
  | WrongRecipient => "WrongRecipient"
  | InsufficientAmount => "InsufficientAmount"
  | TransactionFailed => "TransactionFailed"
  end.

(** Modelled from the spec: addresses are compared without regard to case
    (section 4.2, step 4). *)
Definition sameAddress (a b : string) : bool :=
  String.eqb (toLowerCase a) (toLowerCase b).

(** Modelled from the spec: the Payment Verifier, section 4.2 (the verifier
    is missing from the sources). One ledger read, then the checks in the
    order of the algorithm: absent, not finalized, failed execution, token
    contract, recipient, amount. A transaction with no transfer of the
    accepted token takes the contract-mismatch path, which the spec files
    under [WrongRecipient]. *)
Definition verify (transactionHash : string) (requirement : PaymentRequirement)
  : Eff VerificationVerdict :=
  found ← getTransaction transactionHash (network requirement);
  mret
    match found with
    | None => NotFound
    | Some tx =>
        if negb (finalized tx) then Pending
        else
          match status tx with
          | Failed => TransactionFailed
          | Succeeded =>
              match transferEvent tx with
              | None => WrongRecipient
              | Some transfer =>
                  if negb (String.eqb (token transfer) (tokenContract requirement))
                  then WrongRecipient
                  else if negb (sameAddress (recipient transfer) (recipientAddress requirement))
                  then WrongRecipient
                  else if amount transfer <? minimumAmount requirement - tolerance requirement
                  then InsufficientAmount
                  else Verified (amount transfer) (timestamp tx) transactionHash
              end
          end
    end.

(** Modelled from the spec: the three outcomes of the gate's contract,
    section 4.1 (the middleware is missing from the sources). The spec calls
    the contract "admit" and the first outcome "Admitted"; they are [gate]
    and [Accepted] here. *)
Inductive GateOutcome : Type :=
| Accepted (v : VerificationVerdict)
| Challenge (payload : JsVal)
| Rejected (reason : VerificationVerdict).

(** Modelled from the spec: the body of the 402 challenge, naming amount,
    network, recipient address and instructions; the amount is the price the
    route was mounted with. *)
Definition challenge (options : Options) (cfg : GateConfig) : JsVal :=
  JObj [ ("amount", JStr (price options));
         ("network", JStr (networkName (network (requirement cfg))));
         ("recipientAddress", JStr (recipientAddress (requirement cfg)));
         ("instructions", instructions cfg) ].

(** Modelled from the spec: the Payment Gate, section 4.1 (the middleware is
    missing from the sources). No proof header: the challenge. The bypass
    token in development mode: a synthetic verdict, the ledger is not
    consulted. Otherwise the cache is consulted by transaction hash; a hit
    admits; a miss invokes the verifier, and only a [Verified] verdict is
    written to the cache and admitted. *)
Definition gate (options : Options) (cfg : GateConfig) (req : Request) : Eff GateOutcome :=
  match headers req !! proofHeader with
  | None => mret (Challenge (challenge options cfg))
  | Some proof =>
      if String.eqb proof bypassToken && developmentMode cfg then
        t ← now;
        mret (Accepted (DevModeBypass (minimumAmount (requirement cfg)) t proof))
      else
        hit ← cacheGet proof;
        match hit with
        | Some entry => mret (Accepted (verdict entry))
        | None =>
            v ← verify proof (requirement cfg);
            match v with
            | Verified _ _ _ => cachePut proof v;; mret (Accepted v)
            | _ => mret (Rejected v)
            end
        end
  end.

(** Modelled from the spec: what the gate knows once it has looked the cache
    up, sections 4.1 and 5 (the middleware is missing from the sources): the
    request is settled (challenge, bypass, cache hit), or its proof missed
    the cache and has to be verified. *)
Inductive CacheLookup : Type :=
| Settled (outcome : GateOutcome)
| Missed (proof : string).

(** Modelled from the spec: the gate up to and including its cache lookup,
    the part of [gate] before its one wait (the ledger query), where
    requests served concurrently interleave (section 5). *)
Definition consultCache (options : Options) (cfg : GateConfig) (req : Request)
  : Eff CacheLookup :=
  match headers req !! proofHeader with
  | None => mret (Settled (Challenge (challenge options cfg)))
  | Some proof =>
      if String.eqb proof bypassToken && developmentMode cfg then
        t ← now;
        mret (Settled (Accepted (DevModeBypass (minimumAmount (requirement cfg)) t proof)))
      else
        hit ← cacheGet proof;
        match hit with
        | Some entry => mret (Settled (Accepted (verdict entry)))
        | None => mret (Missed proof)
        end
  end.

(** Modelled from the spec: the rest of the gate after a cache miss: the
    verification and, for a [Verified] verdict, the cache write (an upsert:
    the last writer wins). *)
Definition verifyAndStore (cfg : GateConfig) (proof : string) : Eff GateOutcome :=
  v ← verify proof (requirement cfg);
  match v with
  | Verified _ _ _ => cachePut proof v;; mret (Accepted v)
  | _ => mret (Rejected v)
  end.

(** Modelled from the spec: the states concurrent requests can bring the
    gate to (section 5): the cache, and the verifications in flight (the
    proofs that missed the cache and whose verification has not finished,
    each with the configuration of its request). A fresh process has an empty
    cache and nothing in flight; any request may do its cache lookup at any
    time, and any verification in flight may finish at any time, each step in
    a world of its own (ledger and clock as they are at that moment). Same
    hashes race freely: nothing deduplicates the lookups. *)
Inductive interleaved : gmap string CacheEntry -> list (GateConfig * string) -> Prop :=
| interleaved_start : interleaved ∅ []
| interleaved_lookup (options : Options) (cfg : GateConfig) (req : Request) (w : World)
    (c : gmap string CacheEntry) (inFlight : list (GateConfig * string)) :
    interleaved c inFlight ->
    interleaved (cacheOf (consultCache options cfg req w c))
      (match resultOf (consultCache options cfg req w c) with
       | Missed proof => (cfg, proof) :: inFlight
       | Settled _ => inFlight
       end)
| interleaved_finish (cfg : GateConfig) (proof : string) (w : World)
    (c : gmap string CacheEntry) (before after : list (GateConfig * string)) :
    interleaved c (before ++ (cfg, proof) :: after)%list ->
    interleaved (cacheOf (verifyAndStore cfg proof w c)) (before ++ after)%list.

(** Modelled from the spec: what the gate attaches to the request on
    admission, for the handler to read [hash], [amount] and [timestamp]. *)
Definition paymentOf (v : VerificationVerdict) : JsVal :=
  match v with
  | Verified a t h | DevModeBypass a t h =>
      JObj [("hash", JStr h); ("amount", JNum a); ("timestamp", JNum t)]
  | _ => JUndefined
  end.

(** A middleware either answers the request itself or calls [next] with the
    request it has decorated. *)
Inductive MiddlewareResult : Type :=
| Next (req : Request)
| Respond (r : Response).

(** Modelled from the spec: the HTTP surface of the gate (the middleware is
    missing from the sources): the challenge is a 402 with the challenge
    body, a rejection a 4xx with error, status and message carrying the
    reason, an admission attaches the verdict to the request and lets the
    handler run. *)
Definition paymentRequired (options : Options) (cfg : GateConfig) (req : Request)
  : Eff MiddlewareResult :=
  outcome ← gate options cfg req;
  mret
    match outcome with
    | Challenge payload => Respond (Json 402 payload)
    | Accepted v =>
        Next {| headers := headers req; query := query req; payment := paymentOf v |}
    | Rejected reason =>
        Respond (Json (rejectionStatus cfg reason)
                   (JObj [ ("error", JStr "Payment verification failed");
                           ("status", JNum (rejectionStatus cfg reason));
                           ("message", JStr (verdictName reason)) ]))
    end.

End Payment.

(** ** The transfers route ([src/routes/transfers.js]) *)

Module Transfers.
Import Js Core Payment.

(** [v.split(',').map(x => x.trim())]: only a string has [split]. *)
Definition splitTrim (v : JsVal) : Completion JsVal :=
  match v with
  | JStr s => Normal (JArr (map (fun x => JStr (trim x)) (split "," s)))
  | _ => Throw (TypeError "split is not a function")
  end.

(** The body of the 400 answer (lines 51-56). *)
Definition badRequest : JsVal :=
  JObj [ ("error", JStr "Bad Request");
         ("status", JNum 400);
         ("message", JStr "At least one of: address, fromAddress, or toAddress is required");
         ("example", JStr "/api/transfers?address=addr...") ].

(** [!address && !fromAddress && !toAddress] (line 50). *)
Definition missingAddress (query : gmap string JsVal) : bool :=
  negb (truthy (prop query "address"))
  && negb (truthy (prop query "fromAddress"))
  && negb (truthy (prop query "toAddress")).

(** The object [queryParams] as lines 59-80 build it from the destructured
    query: the two address filters first, then one key per optional parameter
    that is truthy. *)
Definition buildQueryParams (query : gmap string JsVal) : Completion (gmap string JsVal) :=
  let address := prop query "address" in
  let fromAddress := prop query "fromAddress" in
  let toAddress := prop query "toAddress" in
  let category := prop query "category" in
  let fromBlock := prop query "fromBlock" in
  let toBlock := prop query "toBlock" in
  let maxCount := prop query "maxCount" in
  let pageKey := prop query "pageKey" in
  let order := prop query "order" in
  let contractAddresses := prop query "contractAddresses" in
  (* Build query parameters *)
  let queryParams : gmap string JsVal :=
    {[ "fromAddress" := jsOr fromAddress (jsAnd address address);
       "toAddress" := jsOr toAddress (jsAnd address address) ]} in
  (* Parse category (comma-separated string to array) *)
  queryParams ←
    (if truthy category
     then parsed ← splitTrim category; mret (<["category" := parsed]> queryParams)
     else mret queryParams);
  (* Parse contract addresses *)
  queryParams ←
    (if truthy contractAddresses
     then parsed ← splitTrim contractAddresses;
          mret (<["contractAddresses" := parsed]> queryParams)
     else mret queryParams);
  (* Add optional parameters *)
  let queryParams :=
    if truthy fromBlock then <["fromBlock" := fromBlock]> queryParams else queryParams in
  let queryParams :=
    if truthy toBlock then <["toBlock" := toBlock]> queryParams else queryParams in
  let queryParams :=
    if truthy maxCount then <["maxCount" := parseInt maxCount]> queryParams else queryParams in
  let queryParams :=
    if truthy pageKey then <["pageKey" := pageKey]> queryParams else queryParams in
  let queryParams :=
    if truthy order then <["order" := order]> queryParams else queryParams in
  mret queryParams.

(** The answer of lines 91-104 to the provider's [result]. *)
Definition success (req : Request) (result : JsVal) : Completion Response :=
  resultPageKey ← member result "pageKey";
  totalCount ← member result "totalCount";
  mret (Json 200
          (JObj [ ("success", JBool true);
                  ("data", result);
                  ("payment",
                   JObj [ ("hash", optMember (payment req) "hash");
                          ("amount", optMember (payment req) "amount");
                          ("timestamp", optMember (payment req) "timestamp") ]);
                  ("pagination",
                   JObj [ ("hasMore", JBool (truthy resultPageKey));
                          ("pageKey", resultPageKey);
                          ("count", totalCount) ]) ])).

(** The handler of [GET /], the callback mounted behind the payment
    middleware. The whole body is inside [try], and [catch] hands the error
    to [next]. *)
Definition handler (req : Request) : Eff Response :=
  (* Validate required parameters *)
  if missingAddress (query req) then mret (Json 400 badRequest)
  else
    match buildQueryParams (query req) with
    | Throw e => mret (NextError e)
    | Normal queryParams =>
        logInfo "Processing transfers request";;
        (* Fetch transfers from the provider *)
        fetched ← getAssetTransfers queryParams;
        (* Return response with payment info *)
        mret match fetched ≫= success req with
             | Normal r => r
             | Throw e => NextError e
             end
    end.

(** [router.get('/', paymentRequired({ price: '0.01' }), handler)]: the
    middleware runs first, and the handler runs when the middleware calls
    [next]. *)
Definition route (cfg : GateConfig) (req : Request) : Eff Response :=
  answer ← paymentRequired {| price := "0.01" |} cfg req;
  match answer with
  | Respond r => mret r
  | Next req' => handler req'
  end.

(** The names the handler destructures from [req.query] (lines 36-47). *)
Definition queryKeys : list string :=
  [ "address"; "fromAddress"; "toAddress"; "category"; "fromBlock"; "toBlock";
    "maxCount"; "pageKey"; "order"; "contractAddresses" ].

(** The keys lines 60-80 can set on [queryParams]. *)
Definition forwardedKeys : list string :=
  [ "fromAddress"; "toAddress"; "category"; "contractAddresses"; "fromBlock";
    "toBlock"; "maxCount"; "pageKey"; "order" ].

(** The double-quote character, for the texts that contain one. *)
Definition quote : string := String (ascii_of_N 34) EmptyString.

(** The body of [GET /info] (lines 117-147). *)
Definition infoBody : JsVal :=
  JObj [ ("endpoint", JStr "/api/transfers");
         ("description", JStr "Fetch blockchain transaction history for any wallet address");
         ("payment",
          JObj [ ("required", JBool true);
                 ("price", JStr "0.01 USDC");
                 ("network", JStr "Solana-Devnet");
                 ("currency", JStr "USDC") ]);
         ("parameters",
          JObj [ ("address", JStr "Wallet address to query (can be from or to)");
                 ("fromAddress", JStr "Filter by sender address");
                 ("toAddress", JStr "Filter by recipient address");
                 ("category", JStr "Transfer types: external, internal, SPL, NFT, PDA");
                 ("fromBlock", JStr "Start block (hex or number)");
                 ("toBlock", JStr ("End block (hex, number, or " ++ quote ++ "latest" ++ quote ++ ")"));
                 ("maxCount", JStr "Max results per page (1-1000, default: 100)");
                 ("pageKey", JStr "Pagination key from previous response");
                 ("order", JStr "Sort order: asc or desc (default: desc)");
                 ("contractAddresses", JStr "Token contract addresses (comma-separated)") ]);
         ("headers",
          JObj [ ("X-Payment-Hash", JStr "Transaction hash of your payment (required)");
                 ("X-Payment-Amount", JStr "Amount paid (optional)") ]);
         ("example",
          JObj [ ("curl", JStr ("curl -H " ++ quote ++ "X-Payment-Hash: addr..." ++ quote ++ " " ++ quote
                             ++ "https://api.txpay.xyz/api/transfers?address=addr..." ++ quote));
                 ("payment", JStr "Send 0.01 USDC on Solana Devnet to receive access") ]);
         ("documentation", JStr "https://github.com/yourusername/txpay/docs") ].

(** [router.get('/info', (req, res) => res.json({...}))]: mounted without the
    payment middleware. *)
Definition info (req : Request) : Eff Response := mret (Json 200 infoBody).

(** The handler depends on a query parameter when two requests that differ
    in nothing else can be handled differently. *)
Definition dependsOn (k : string) : Prop :=
  exists (req req' : Request) (w : World) (c : gmap string CacheEntry),
    headers req = headers req' /\
    payment req = payment req' /\
    (forall k', k' <> k -> query req !! k' = query req' !! k') /\
    handler req w c <> handler req' w c.

(** What a trace handed to the provider under a key of the query. *)
Fixpoint forwardedIn (trace : list Event) (k : string) : option JsVal :=
  match trace with
  | ProviderCall queryParams :: _ => queryParams !! k
  | _ :: rest => forwardedIn rest k
  | [] => None
  end.

(** The keys of an object literal, in order. *)
Definition keysOf (v : JsVal) : list string :=
  match v with
  | JObj fields => map fst fields
  | _ => []
  end.

End Transfers.

(** ** The payment script ([send-payment.js]) *)

Module SendPayment.
Import Js.

(** USDC contract on Solana Devnet *)
Definition USDC_CONTRACT : string := "EPjFWdd5AufqSSqeM2qN1xzybapC8G4wEGGkZwyTDt1v".

(** SPL transfer function signature *)
Definition TOKEN_PROGRAM_ID : string := "TokenkegQfeZyiNwAJbNbGKPFXCWuBvf9Ss623VQ5DA".

(** The names an identifier inside [sendUSDCPayment] can resolve to, innermost
    scope first: the parameters and locals of the function, the bindings of
    the module (imports, the two constants, the two functions), and the
    globals the script uses. A binding carries its value where it is a
    constant of the script. *)
Definition functionScope : list (string * option JsVal) :=
  map (fun name => (name, None))
    [ "privateKey"; "recipient"; "amountInUSDC"; "alchemy"; "wallet"; "senderAddress";
      "balanceData"; "balance"; "balanceInSmallestUnit"; "balanceInUSDC";
      "amountInSmallestUnit"; "recipientPadded"; "amountHex"; "data"; "tx";
      "response"; "receipt"; "error" ].

Definition moduleScope : list (string * option JsVal) :=
  [ ("Alchemy", None); ("Network", None); ("Wallet", None); ("Utils", None);
    ("dotenv", None);
    ("USDC_CONTRACT", Some (JStr USDC_CONTRACT));
    ("TOKEN_PROGRAM_ID", Some (JStr TOKEN_PROGRAM_ID));
    ("sendUSDCPayment", None); ("main", None) ].

Definition globalScope : list (string * option JsVal) :=
  map (fun name => (name, None))
    [ "console"; "process"; "BigInt"; "Number"; "Math"; "parseFloat"; "undefined" ].

Definition scopeChain : list (string * option JsVal) :=
  (functionScope ++ moduleScope ++ globalScope)%list.

Fixpoint lookupBinding (ident : string) (scope : list (string * option JsVal))
  : option (option JsVal) :=
  match scope with
  | [] => None
  | (name, b) :: rest => if String.eqb ident name then Some b else lookupBinding ident rest
  end.

(** Reading an identifier: an unresolvable reference throws. *)
Definition resolve (ident : string) : Completion JsVal :=
  match lookupBinding ident scopeChain with
  | Some b => Normal (default JUndefined b)
  | None => Throw (ReferenceError (ident ++ " is not defined"))
  end.

(** The Number [amountInUSDC] enters the function only through
    [Math.floor(amountInUSDC * 1e6)]; the argument is represented by that
    value: an integer, or no finite number (NaN, an infinity). *)
Inductive Amount : Type :=
| Units (floorOfMillionths : Z)
| NotFinite.

Record TransactionRequest : Type := {
  to : string;
  data : string;
  gasLimit : Z
}.

(** The collaborators of the script: the wallet constructor (the address of a
    private key), the token-balance query, sending a transaction and waiting
    for its receipt. *)
Record Chain : Type := {
  walletAddress : string -> Completion string;
  getTokenBalances : string -> list string -> Completion JsVal;
  sendTransaction : TransactionRequest -> Completion JsVal;
  wait : JsVal -> Completion JsVal
}.

(** [TransactionBuilt] marks the point where the object [tx] is built. *)
Inductive Effect : Type :=
| BalanceQuery (owner : string) (contracts : list string)
| TransactionBuilt (tx : TransactionRequest)
| TransactionSent (tx : TransactionRequest)
| ReceiptAwaited.

(** How a run of the script's function ends: it returns, it throws (the
    promise of the async function rejects), or [process.exit] ends the
    process. *)
Inductive Outcome (A : Type) : Type :=
| Returned (a : A)
| Raised (e : JsError)
| Exited (code : Z).
Arguments Returned {A} a.
Arguments Raised {A} e.
Arguments Exited {A} code.

(** A run: its outcome and the effects it performed, in order. Console
    output is not recorded. *)
Definition Script (A : Type) : Type := Outcome A * list Effect.

Definition sret {A} (a : A) : Script A := (Returned a, []).

Definition sbind {A B} (m : Script A) (k : A -> Script B) : Script B :=
  match m with
  | (Returned a, t) => let '(r, t') := k a in (r, (t ++ t')%list)
  | (Raised e, t) => (Raised e, t)
  | (Exited code, t) => (Exited code, t)
  end.

#[global] Instance Script_ret : MRet Script := @sret.
#[global] Instance Script_bind : MBind Script := fun A B k m => sbind m k.

Definition eval {A} (c : Completion A) : Script A :=
  match c with
  | Normal a => (Returned a, [])
  | Throw e => (Raised e, [])
  end.

Definition perform {A} (ev : Effect) (c : Completion A) : Script A :=
  match c with
  | Normal a => (Returned a, [ev])
  | Throw e => (Raised e, [ev])
  end.

Definition exit {A} (code : Z) : Script A := (Exited code, []).

Definition tryCatch {A} (body : Script A) (handler : JsError -> Script A) : Script A :=
  match body with
  | (Raised e, t) => let '(r, t') := handler e in (r, (t ++ t')%list)
  | done => done
  end.

Definition sendUSDCPayment (chain : Chain) (privateKey recipient : string)
    (amountInUSDC : Amount) : Script JsVal :=
  (* Create wallet *)
  senderAddress ← eval (walletAddress chain privateKey);
  (* Check USDC balance *)
  balanceData ← perform (BalanceQuery senderAddress [USDC_CONTRACT])
                  (getTokenBalances chain senderAddress [USDC_CONTRACT]);
  tokenBalances ← eval (member balanceData "tokenBalances");
  balance ← eval (first tokenBalances);
  tokenBalance ← eval (member balance "tokenBalance");
  if isString tokenBalance "addr" || isString tokenBalance "0x0" then exit 1
  else
    balanceInSmallestUnit ← eval (BigInt tokenBalance);
    (* Convert amount to smallest unit (USDC has 6 decimals) *)
    amountInSmallestUnit ←
      eval (match amountInUSDC with
            | Units n => Normal n
            | NotFinite => Throw (RangeError "The number cannot be converted to a BigInt")
            end);
    (* Check sufficient balance *)
    if amountInSmallestUnit >? balanceInSmallestUnit then exit 1
    else
      (* Encode transfer function call *)
      let recipientPadded := padStart 64 "0" (slice 2 recipient) in
      let amountHex := padStart 64 "0" (toString16 amountInSmallestUnit) in
      signature ← eval (resolve "TRANSFER_FUNCTION_SIGNATURE");
      let data := toString signature ++ recipientPadded ++ amountHex in
      (* Build transaction *)
      let tx := {| to := USDC_CONTRACT; data := data; gasLimit := 100000 |} in
      perform (TransactionBuilt tx) (Normal tt);;
      (* Send transaction *)
      tryCatch
        (response ← perform (TransactionSent tx) (sendTransaction chain tx);
         _ ← eval (member response "hash");
         (* Wait for transaction to be mined *)
         receipt ← perform ReceiptAwaited (wait chain response);
         gasUsed ← eval (member receipt "gasUsed");
         _ ← eval (member gasUsed "toString");
         receiptStatus ← eval (member receipt "status");
         if isNumber receiptStatus 1
         then eval (member receipt "hash")
         else exit 1)
        (fun error => exit 1).

(** The process the script runs in: [process.argv] and [process.env]. *)
Record Process : Type := {
  argv : list string;
  env : gmap string string
}.

(** Truthiness of a value that is a string or [undefined]. *)
Definition nonEmpty (o : option string) : bool :=
  match o with
  | Some (String _ _) => true
  | _ => false
  end.

(** [a || b] on such values. *)
Definition orElse (a b : option string) : option string :=
  if nonEmpty a then a else b.

Section Main.

(** [scaled text] stands for [Math.floor(parseFloat(text) * 1e6)], the
    floating-point reading of the amount argument as [sendUSDCPayment] uses
    it. *)
Variable scaled : string -> Amount.

(** [main] (lines 149-179): the three arguments, the three guards, the
    call. *)
Definition main (proc : Process) (chain : Chain) : Script JsVal :=
  let privateKey := argv proc !! 2%nat in
  let recipient := orElse (argv proc !! 3%nat) (env proc !! "PAYMENT_ADDRESS") in
  let amount := scaled (default "0.01" (orElse (argv proc !! 4%nat) (Some "0.01"))) in
  match privateKey with
  | Some (String _ _ as privateKey) =>
      if negb (nonEmpty (env proc !! "ALCHEMY_API_KEY")) then exit 1
      else
        match recipient with
        | Some (String _ _ as recipient) =>
            sendUSDCPayment chain privateKey recipient amount;;
            mret JUndefined
        | _ => exit 1
        end
  | _ => exit 1
  end.

End Main.

(** How the process ends: [process.exit(code)], or the promise of [main]
    settles; a rejection is handed to [console.error] by the [catch] of line
    181 and the process then ends on its own. *)
Inductive Ending : Type :=
| ProcessExit (code : Z)
| ErrorLogged (e : JsError)
| Completed.

(** The script from its last line: [main().catch(console.error)]. *)
Definition script (scaled : string -> Amount) (proc : Process) (chain : Chain)
  : Ending * list Effect :=
  match main scaled proc chain with
  | (Returned _, t) => (Completed, t)
  | (Raised e, t) => (ErrorLogged e, t)
  | (Exited code, t) => (ProcessExit code, t)
  end.

End SendPayment.

(** ** Concrete requests, ledgers and providers used by the examples *)

Module Examples.
Import Js Core Payment Transfers.

Definition payTo : string := "64swuFWG5RDSc3SDUhRKefYJtY5q1EkoixcPg3ZsVpcG".

Definition requirement0 : PaymentRequirement :=
  {| recipientAddress := payTo;
     minimumAmount := 10000;
     tolerance := 1;
     network := TestNetwork;
     tokenContract := SendPayment.USDC_CONTRACT |}.

Definition config (development : bool) : GateConfig :=
  {| developmentMode := development;
     requirement := requirement0;
     instructions := JStr "Send 0.01 USDC, then retry with the X-Payment-Hash header";
     rejectionStatus := fun _ => 402 |}.

Definition paidHash : string :=
  "0x31a7953d4c5b5a0fc739b9cf00be1a152063b16458d293c91d1e2e8e6d7a8d5c".

Definition transferOf (units : Z) : Transaction :=
  {| finalized := true;
     status := Succeeded;
     transferEvent :=
       Some {| sender := "7xKXtg2CW87d97TXJSDpbD5jBkheTqA83TZRuJosgAsU";
               recipient := payTo;
               token := SendPayment.USDC_CONTRACT;
               amount := units |};
     timestamp := 1700000000 |}.

(** A ledger holding one finalized payment under [paidHash], and a provider
    that answers every query with the given page. *)
Definition world (units : Z) (page : JsVal) : World :=
  {| ledger := fun hash _ => if String.eqb hash paidHash then Some (transferOf units) else None;
     provider := fun _ => Normal page;
     clock := 1700000100 |}.

(** A ledger with one transaction per verdict of the verifier, against
    [requirement0]. *)
Definition transaction (final : bool) (outcome : ExecutionStatus) (contract payee : string)
    (units : Z) : Transaction :=
  {| finalized := final;
     status := outcome;
     transferEvent :=
       Some {| sender := "7xKXtg2CW87d97TXJSDpbD5jBkheTqA83TZRuJosgAsU";
               recipient := payee;
               token := contract;
               amount := units |};
     timestamp := 1700000000 |}.

Definition verdicts : World :=
  {| ledger := fun hash _ =>
       if String.eqb hash "pending" then
         Some (transaction false Succeeded SendPayment.USDC_CONTRACT payTo 10000)
       else if String.eqb hash "failed" then
         Some (transaction true Failed SendPayment.USDC_CONTRACT payTo 10000)
       else if String.eqb hash "other-token" then
         Some (transaction true Succeeded "So11111111111111111111111111111111111111112" payTo 10000)
       else if String.eqb hash "other-recipient" then
         Some (transaction true Succeeded SendPayment.USDC_CONTRACT
                 "7xKXtg2CW87d97TXJSDpbD5jBkheTqA83TZRuJosgAsU" 10000)
       else if String.eqb hash "short" then
         Some (transaction true Succeeded SendPayment.USDC_CONTRACT payTo 9998)
       else if String.eqb hash "upper-case" then
         Some (transaction true Succeeded SendPayment.USDC_CONTRACT
                 "64SWUFWG5RDSC3SDUHRKEFYJTY5Q1EKOIXCPG3ZSVPCG" 9999)
       else None;
     provider := fun _ => Throw (Failure "provider unavailable");
     clock := 1700000100 |}.


Definition later (w : World) : World :=
  {| ledger := ledger w; provider := provider w; clock := clock w + 100 |}.

Definition emptyPage : JsVal :=
  JObj [("transfers", JArr []); ("totalCount", JNum 0)].

(** A page whose continuation cursor is present and empty. *)
Definition emptyCursorPage : JsVal :=
  JObj [("transfers", JArr []); ("pageKey", JStr ""); ("totalCount", JNum 0)].

Definition request (proof : option string) (q : list (string * JsVal)) : Request :=
  {| headers := match proof with
                | Some hash => {[ proofHeader := hash ]}
                | None => ∅
                end;
     query := list_to_map q;
     payment := JUndefined |}.

(** A chain on which the sender holds 10 USDC (0x989680 units) and every
    transaction sent is mined successfully. *)
Definition chain : SendPayment.Chain :=
  {| SendPayment.walletAddress :=
       fun _ => Normal "7xKXtg2CW87d97TXJSDpbD5jBkheTqA83TZRuJosgAsU";
     SendPayment.getTokenBalances :=
       fun owner _ =>
         Normal (JObj [ ("address", JStr owner);
                        ("tokenBalances",
                         JArr [ JObj [ ("contractAddress", JStr SendPayment.USDC_CONTRACT);
                                       ("tokenBalance", JStr "0x989680") ] ]) ]);
     SendPayment.sendTransaction := fun _ => Normal (JObj [("hash", JStr paidHash)]);
     SendPayment.wait :=
       fun _ => Normal (JObj [ ("hash", JStr paidHash); ("blockNumber", JNum 1);
                               ("gasUsed", JNum 65000); ("status", JNum 1) ]) |}.

(** The reading of the amount argument on the texts the examples use. *)
Definition scaled (text : string) : SendPayment.Amount :=
  if String.eqb text "0.01" then SendPayment.Units 10000
  else if String.eqb text "2.5" then SendPayment.Units 2500000
  else if String.eqb text "25" then SendPayment.Units 25000000
  else SendPayment.NotFinite.

Definition process (args : list string) (vars : list (string * string)) : SendPayment.Process :=
  {| SendPayment.argv := "node" :: "send-payment.js" :: args;
     SendPayment.env := list_to_map vars |}.

(** A chain like [chain] whose balance query answers with the given
    [tokenBalances]. *)
Definition chainWith (tokenBalances : JsVal) : SendPayment.Chain :=
  {| SendPayment.walletAddress := SendPayment.walletAddress chain;
     SendPayment.getTokenBalances :=
       fun owner _ => Normal (JObj [("address", JStr owner); ("tokenBalances", tokenBalances)]);
     SendPayment.sendTransaction := SendPayment.sendTransaction chain;
     SendPayment.wait := SendPayment.wait chain |}.

End Examples.

(** ** Tactics that unfold the monads *)

Module Tactics.
Import Js Core.

Ltac unfold_completion :=
  unfold mbind, mret, Completion_bind, Completion_ret, cbind in *.

Ltac unfold_eff :=
  unfold mbind, mret, Eff_bind, Eff_ret, ebind, eret, getTransaction, cacheGet,
    cachePut, now, getAssetTransfers, logInfo in *.

Ltac unfold_script :=
  unfold mbind, mret, SendPayment.Script_bind, SendPayment.Script_ret,
    SendPayment.sbind, SendPayment.sret, SendPayment.eval, SendPayment.perform,
    SendPayment.exit, SendPayment.tryCatch in *.

End Tactics.

(** * The built-ins on examples *)

Module JsExamples.
Import Js.

Example parseInt_examples :
  parseInt (JStr "50") = JNum 50 /\
  parseInt (JStr "  42px") = JNum 42 /\
  parseInt (JStr "-7") = JNum (-7) /\
  parseInt (JStr "1e3") = JNum 1 /\
  parseInt (JStr "abc") = JNaN /\
  parseInt (JArr [JStr "12"; JStr "9"]) = JNum 12 /\
  parseInt (JObj [("gt", JStr "5")]) = JNaN.
Proof. repeat split; reflexivity. Qed.

Example truthy_examples :
  truthy (JStr "") = false /\ truthy (JStr "0") = true /\
  truthy JUndefined = false /\ truthy (JArr []) = true.
Proof. repeat split; reflexivity. Qed.

Example split_trim_examples :
  map trim (split "," "external, SPL ,NFT") = ["external"; "SPL"; "NFT"] /\
  split "," "" = [""] /\
  split "," "a,,b" = ["a"; ""; "b"].
Proof. repeat split; reflexivity. Qed.

Example BigInt_examples :
  BigInt (JStr "0x989680") = Normal 10000000 /\
  BigInt (JStr " 15 ") = Normal 15 /\
  BigInt (JStr "") = Normal 0 /\
  BigInt (JStr "-0x1") = Throw (SyntaxError "Cannot convert to a BigInt") /\
  BigInt (JStr "1.5") = Throw (SyntaxError "Cannot convert to a BigInt") /\
  BigInt JNull = Throw (TypeError "Cannot convert to a BigInt").
Proof. repeat split; reflexivity. Qed.

Example padStart_examples :
  padStart 8 "0" (toString16 10000) = "00002710" /\
  padStart 2 "0" "abc" = "abc" /\
  slice 2 "0xRecipient" = "Recipient".
Proof. repeat split; reflexivity. Qed.

End JsExamples.

(** * Properties of the transfers route *)

Module TransfersSpec.
Import Js Core Payment Transfers Tactics.

Lemma jsAnd_same (a : JsVal) : jsAnd a a = a.
Proof. unfold jsAnd. by destruct (truthy a). Qed.

Lemma prop_absent (q : gmap string JsVal) (k : string) :
  q !! k = None -> prop q k = JUndefined.
Proof. unfold prop. by intros ->. Qed.

Lemma prop_present (q : gmap string JsVal) (k : string) (v : JsVal) :
  q !! k = Some v -> prop q k = v.
Proof. unfold prop. by intros ->. Qed.

(** What [queryParams] holds under the three keys the claims speak of,
    whatever the optional parameters add. *)
Lemma lookup_optional (m : gmap string JsVal) (b : bool) (key k : string) (v : JsVal) :
  k <> key -> (if b then <[key := v]> m else m) !! k = m !! k.
Proof. intros Hne. destruct b; [by rewrite lookup_insert_ne|done]. Qed.

Lemma buildQueryParams_lookup (q qp : gmap string JsVal) :
  buildQueryParams q = Normal qp ->
  qp !! "fromAddress" = Some (jsOr (prop q "fromAddress") (prop q "address")) /\
  qp !! "toAddress" = Some (jsOr (prop q "toAddress") (prop q "address")) /\
  qp !! "maxCount" =
    (if truthy (prop q "maxCount") then Some (parseInt (prop q "maxCount")) else None).
Proof.
  unfold buildQueryParams. rewrite !jsAnd_same. unfold_completion.
  destruct (truthy (prop q "category")); [destruct (splitTrim (prop q "category"))|];
    (destruct (truthy (prop q "contractAddresses"));
       [destruct (splitTrim (prop q "contractAddresses"))|]);
    cbv beta iota; try discriminate;
    intros [= <-];
    (split; [|split]);
    rewrite ?lookup_optional by discriminate;
    try (rewrite ?lookup_insert_ne by discriminate; by simplify_map_eq).
  all: destruct (truthy (prop q "maxCount")); [by rewrite lookup_insert_eq|].
  all: rewrite ?lookup_optional by discriminate.
  all: rewrite ?lookup_insert_ne by discriminate; by simplify_map_eq.
Qed.

Lemma handler_bad_request (req : Request) (w : World) (c : gmap string CacheEntry) :
  missingAddress (query req) = true ->
  handler req w c = (Json 400 badRequest, c, []).
Proof. unfold handler. by intros ->. Qed.

Lemma handler_forwards (req : Request) (w : World) (c : gmap string CacheEntry)
    (qp : gmap string JsVal) :
  missingAddress (query req) = false ->
  buildQueryParams (query req) = Normal qp ->
  handler req w c =
    (match provider w qp ≫= success req with
     | Normal r => r
     | Throw e => NextError e
     end, c, [LogInfo "Processing transfers request"; ProviderCall qp]).
Proof. unfold handler. by intros -> ->. Qed.

Lemma handler_provider_call (req : Request) (w : World) (c : gmap string CacheEntry)
    (qp : gmap string JsVal) :
  ProviderCall qp ∈ traceOf (handler req w c) ->
  missingAddress (query req) = false /\ buildQueryParams (query req) = Normal qp.
Proof.
  unfold handler.
  destruct (missingAddress (query req)) eqn:Hm.
  - cbn. intros H. by apply elem_of_nil in H.
  - destruct (buildQueryParams (query req)) as [qp'|e] eqn:Hb.
    + cbn. intros H. apply elem_of_cons in H as [H|H]; [done|]. apply list_elem_of_singleton in H. by simplify_eq.
    + cbn. intros H. by apply elem_of_nil in H.
Qed.

(** The gate performs no provider call. *)
Lemma gate_no_provider_call (options : Options) (cfg : GateConfig) (req : Request)
    (w : World) (c : gmap string CacheEntry) :
  forallb (fun e => negb (isProviderCall e)) (traceOf (gate options cfg req w c)) = true.
Proof.
  unfold gate, verify. unfold_eff.
  repeat (case_match; simplify_eq); reflexivity.
Qed.

(** The route, read off the gate's outcome. *)
Lemma route_unfold (cfg : GateConfig) (req : Request) (w : World)
    (c : gmap string CacheEntry) :
  route cfg req w c =
    let '(outcome, c1, t1) := gate {| price := "0.01" |} cfg req w c in
    match outcome with
    | Accepted v =>
        let '(r, c2, t2) :=
          handler {| headers := headers req; query := query req; payment := paymentOf v |}
            w c1 in
        (r, c2, (t1 ++ t2)%list)
    | Challenge payload => (Json 402 payload, c1, t1)
    | Rejected reason =>
        (Json (rejectionStatus cfg reason)
           (JObj [ ("error", JStr "Payment verification failed");
                   ("status", JNum (rejectionStatus cfg reason));
                   ("message", JStr (verdictName reason)) ]), c1, t1)
    end.
Proof.
  unfold route, paymentRequired. unfold_eff.
  destruct (gate _ cfg req w c) as [[outcome c1] t1].
  destruct outcome; cbn; by rewrite ?app_nil_r.
Qed.

(** A provider call in the trace of the route is the handler's: the gate
    admitted the request, the address check passed, and the query handed
    over is the one [buildQueryParams] built. *)
Lemma route_provider_call (cfg : GateConfig) (req : Request) (w : World)
    (c : gmap string CacheEntry) (qp : gmap string JsVal) :
  ProviderCall qp ∈ traceOf (route cfg req w c) ->
  exists v,
    resultOf (gate {| price := "0.01" |} cfg req w c) = Accepted v /\
    missingAddress (query req) = false /\
    buildQueryParams (query req) = Normal qp /\
    resultOf (route cfg req w c) =
      match provider w qp ≫=
              success {| headers := headers req; query := query req;
                         payment := paymentOf v |} with
      | Normal r => r
      | Throw e => NextError e
      end.
Proof.
  rewrite route_unfold.
  pose proof (gate_no_provider_call {| price := "0.01" |} cfg req w c) as Hgate.
  destruct (gate _ cfg req w c) as [[outcome c1] t1]. cbn in Hgate.
  assert (Hno : ProviderCall qp ∉ t1).
  { intros Hin. rewrite forallb_forall in Hgate.
    apply list_elem_of_In, Hgate in Hin. discriminate. }
  destruct outcome as [v|payload|reason]; cbn; try done.
  set (req' := {| headers := headers req; query := query req; payment := paymentOf v |}).
  pose proof (handler_provider_call req' w c1 qp) as Hh.
  destruct (handler req' w c1) as [[r c2] t2] eqn:Hrun. cbn in *.
  intros Hin. apply elem_of_app in Hin as [Hin|Hin]; [done|].
  destruct (Hh Hin) as [Hm Hb].
  exists v. repeat split; try done.
  rewrite (handler_forwards req' w c1 qp Hm Hb) in Hrun. by simplify_eq.
Qed.

(** Whatever query reaches the provider, its [maxCount] is the parsed
    parameter itself when the parameter is truthy, and absent otherwise. *)
Lemma route_forwards_parsed_maxCount (cfg : GateConfig) (req : Request) (w : World)
    (c : gmap string CacheEntry) (qp : gmap string JsVal) :
  ProviderCall qp ∈ traceOf (route cfg req w c) ->
  qp !! "maxCount" =
    (if truthy (prop (query req) "maxCount")
     then Some (parseInt (prop (query req) "maxCount"))
     else None).
Proof.
  intros Hcall.
  destruct (route_provider_call cfg req w c qp Hcall) as (_ & _ & _ & Hb & _).
  by destruct (buildQueryParams_lookup _ _ Hb) as (_ & _ & ->).
Qed.

(** C5, at the failing inputs. The handler hands [parseInt(maxCount, 10)] to
    the provider as it is: a request admitted in development mode with
    [maxCount=5000] reaches the provider with [maxCount] 5000, and whatever
    the headers, the world and the cache, [maxCount=0] is forwarded as 0 and
    [maxCount=-5] as -5. Nothing clamps the value into 1..1000. *)
Theorem maxCount_forwarded_unclamped :
  traceOf (route (Examples.config true)
             (Examples.request (Some "demo")
                [("address", JStr Examples.payTo); ("maxCount", JStr "5000")])
             (Examples.world 10000 Examples.emptyPage) ∅)
  = [ LogInfo "Processing transfers request";
      ProviderCall {[ "fromAddress" := JStr Examples.payTo;
                      "toAddress" := JStr Examples.payTo;
                      "maxCount" := JNum 5000 ]} ] /\
  (forall (hdrs : gmap string string) (pay : JsVal) (w : World)
          (c : gmap string CacheEntry),
      traceOf (handler {| headers := hdrs;
                          query := {[ "address" := JStr Examples.payTo;
                                      "maxCount" := JStr "0" ]};
                          payment := pay |} w c)
      = [ LogInfo "Processing transfers request";
          ProviderCall {[ "fromAddress" := JStr Examples.payTo;
                          "toAddress" := JStr Examples.payTo;
                          "maxCount" := JNum 0 ]} ]) /\
  (forall (hdrs : gmap string string) (pay : JsVal) (w : World)
          (c : gmap string CacheEntry),
      traceOf (handler {| headers := hdrs;
                          query := {[ "address" := JStr Examples.payTo;
                                      "maxCount" := JStr "-5" ]};
                          payment := pay |} w c)
      = [ LogInfo "Processing transfers request";
          ProviderCall {[ "fromAddress" := JStr Examples.payTo;
                          "toAddress" := JStr Examples.payTo;
                          "maxCount" := JNum (-5) ]} ]).
Proof. repeat split; intros; reflexivity. Qed.

(** C6, counterexample. Two requests with none of [address], [fromAddress],
    [toAddress]. The first carries no proof header: the gate answers it
    with the 402 challenge, not with 400. The second carries the hash of a
    payment that is not cached yet: the answer is the 400, but the gate has
    looked the hash up on the ledger (and cached the verdict) before the
    handler could refuse the query. *)
Lemma bad_request_behind_gate_counterexample :
  (query (Examples.request None []) !! "address" = None /\
   query (Examples.request None []) !! "fromAddress" = None /\
   query (Examples.request None []) !! "toAddress" = None /\
   statusOf (resultOf (route (Examples.config false) (Examples.request None [])
                         (Examples.world 10000 Examples.emptyPage) ∅)) = Some 402) /\
  (query (Examples.request (Some Examples.paidHash) []) !! "address" = None /\
   query (Examples.request (Some Examples.paidHash) []) !! "fromAddress" = None /\
   query (Examples.request (Some Examples.paidHash) []) !! "toAddress" = None /\
   route (Examples.config false) (Examples.request (Some Examples.paidHash) [])
     (Examples.world 10000 Examples.emptyPage) ∅
   = (Json 400 badRequest,
      {[ Examples.paidHash :=
           {| verdict := Verified 10000 1700000000 Examples.paidHash;
              createdAt := 1700000100 |} ]},
      [ LedgerQuery Examples.paidHash TestNetwork;
        CachePut Examples.paidHash (Verified 10000 1700000000 Examples.paidHash) ])).
Proof. repeat split; reflexivity. Qed.

(** C6, amended. When none of [address], [fromAddress], [toAddress] is
    present and the payment gate admits the request, the answer is status 400
    with a body carrying [error], [status] and [message], and the provider is
    not called: the route performs the gate's own effects and nothing more.
    (The gate runs first, so a request it does not gate is answered by the
    gate.) *)
Theorem missing_address_is_400_behind_gate (cfg : GateConfig) (req : Request)
    (w : World) (c : gmap string CacheEntry) (v : VerificationVerdict) :
  query req !! "address" = None ->
  query req !! "fromAddress" = None ->
  query req !! "toAddress" = None ->
  resultOf (gate {| price := "0.01" |} cfg req w c) = Accepted v ->
  resultOf (route cfg req w c) = Json 400 badRequest /\
  hasField "error" badRequest = true /\
  hasField "status" badRequest = true /\
  hasField "message" badRequest = true /\
  optMember badRequest "status" = JNum 400 /\
  traceOf (route cfg req w c) = traceOf (gate {| price := "0.01" |} cfg req w c) /\
  cacheOf (route cfg req w c) = cacheOf (gate {| price := "0.01" |} cfg req w c) /\
  forallb (fun e => negb (isProviderCall e)) (traceOf (route cfg req w c)) = true.
Proof.
  intros Ha Hf Ht Hacc.
  pose proof (gate_no_provider_call {| price := "0.01" |} cfg req w c) as Hgate.
  rewrite route_unfold.
  destruct (gate _ cfg req w c) as [[outcome c1] t1]. cbn in Hacc, Hgate. subst outcome.
  rewrite handler_bad_request.
  - cbn. rewrite app_nil_r. by repeat split.
  - unfold missingAddress; cbn. by rewrite !prop_absent.
Qed.

Lemma missing_address_is_400_behind_gate_witness :
  query (Examples.request (Some Examples.paidHash) []) !! "address" = None /\
  query (Examples.request (Some Examples.paidHash) []) !! "fromAddress" = None /\
  query (Examples.request (Some Examples.paidHash) []) !! "toAddress" = None /\
  resultOf (gate {| price := "0.01" |} (Examples.config false)
              (Examples.request (Some Examples.paidHash) [])
              (Examples.world 10000 Examples.emptyPage) ∅)
  = Accepted (Verified 10000 1700000000 Examples.paidHash) /\
  resultOf (route (Examples.config false) (Examples.request (Some Examples.paidHash) [])
              (Examples.world 10000 Examples.emptyPage) ∅) = Json 400 badRequest.
Proof.
  do 4 (split; [reflexivity|]).
  eapply (missing_address_is_400_behind_gate (Examples.config false)
            (Examples.request (Some Examples.paidHash) [])
            (Examples.world 10000 Examples.emptyPage) ∅); reflexivity.
Defined.

(** C8. A request without the proof header is answered by the gate with
    status 402 and a body naming [amount], [network], [recipientAddress] and
    [instructions]; on the transfers route, mounted with price 0.01, the
    amount is the string 0.01 and the recipient is the configured address.
    Neither the ledger nor the provider is consulted, and the cache is left
    as it was. *)
Theorem no_proof_is_challenged (cfg : GateConfig) (req : Request) (w : World)
    (c : gmap string CacheEntry) :
  headers req !! proofHeader = None ->
  exists body,
    route cfg req w c = (Json 402 body, c, []) /\
    optMember body "amount" = JStr "0.01" /\
    optMember body "network" = JStr (networkName (network (requirement cfg))) /\
    optMember body "recipientAddress" = JStr (recipientAddress (requirement cfg)) /\
    optMember body "instructions" = instructions cfg /\
    hasField "amount" body = true /\
    hasField "network" body = true /\
    hasField "recipientAddress" body = true /\
    hasField "instructions" body = true.
Proof.
  intros Hnone.
  exists (challenge {| price := "0.01" |} cfg).
  rewrite route_unfold. unfold gate. rewrite Hnone. cbn. by repeat split.
Qed.

Lemma no_proof_is_challenged_witness :
  headers (Examples.request None [("address", JStr Examples.payTo)]) !! proofHeader = None /\
  exists body,
    route (Examples.config false) (Examples.request None [("address", JStr Examples.payTo)])
      (Examples.world 10000 Examples.emptyPage) ∅ = (Json 402 body, ∅, []) /\
    optMember body "amount" = JStr "0.01" /\
    optMember body "network" = JStr "Solana-Devnet" /\
    optMember body "recipientAddress" = JStr Examples.payTo /\
    optMember body "instructions" = instructions (Examples.config false) /\
    hasField "amount" body = true /\
    hasField "network" body = true /\
    hasField "recipientAddress" body = true /\
    hasField "instructions" body = true.
Proof.
  split; [reflexivity|].
  apply (no_proof_is_challenged (Examples.config false)
           (Examples.request None [("address", JStr Examples.payTo)])
           (Examples.world 10000 Examples.emptyPage) ∅).
  reflexivity.
Defined.

(** C7, counterexample. The provider's page contains a [pageKey], the empty
    string. The answer passes it through, and [hasMore] is false all the
    same. *)
Lemma empty_cursor_counterexample :
  hasField "pageKey" Examples.emptyCursorPage = true /\
  optMember Examples.emptyCursorPage "pageKey" = JStr "" /\
  bodyOf (resultOf (route (Examples.config false)
                      (Examples.request (Some Examples.paidHash)
                         [("address", JStr Examples.payTo)])
                      (Examples.world 10000 Examples.emptyCursorPage) ∅))
  = JObj [ ("success", JBool true);
           ("data", Examples.emptyCursorPage);
           ("payment", JObj [ ("hash", JStr Examples.paidHash);
                              ("amount", JNum 10000);
                              ("timestamp", JNum 1700000000) ]);
           ("pagination", JObj [ ("hasMore", JBool false);
                                 ("pageKey", JStr "");
                                 ("count", JNum 0) ]) ].
Proof. repeat split; reflexivity. Qed.

(** C7, amended. Whenever the provider answers the forwarded query with a
    result, the route answers 200, [data] is the result, [pagination.pageKey]
    is the result's [pageKey] unchanged, and [pagination.hasMore] is the
    truthiness of that [pageKey]: for a string cursor, true exactly when the
    cursor is not empty; false when there is none. *)
Theorem pagination_passes_cursor_through (cfg : GateConfig) (req : Request) (w : World)
    (c : gmap string CacheEntry) (qp : gmap string JsVal) (result pageKey : JsVal) :
  ProviderCall qp ∈ traceOf (route cfg req w c) ->
  provider w qp = Normal result ->
  member result "pageKey" = Normal pageKey ->
  exists body,
    resultOf (route cfg req w c) = Json 200 body /\
    optMember body "data" = result /\
    optMember (optMember body "pagination") "pageKey" = pageKey /\
    optMember (optMember body "pagination") "hasMore" = JBool (truthy pageKey) /\
    (forall s, pageKey = JStr s -> (truthy pageKey = true <-> s <> "")) /\
    (pageKey = JUndefined -> truthy pageKey = false).
Proof.
  intros Hcall Hres Hkey.
  destruct (route_provider_call cfg req w c qp Hcall) as (v & _ & _ & _ & ->).
  rewrite Hres. unfold success. unfold_completion. rewrite Hkey.
  assert (exists n, member result "totalCount" = Normal n) as [n ->].
  { destruct result; try discriminate; cbn; eauto. }
  eexists. split; [reflexivity|]. cbn.
  repeat split; try done.
  - intros Ht ->. by subst.
  - subst. cbn. intros Hs. destruct (String.eqb_spec s ""); done.
  - by intros ->.
Qed.

Lemma pagination_passes_cursor_through_witness :
  ProviderCall {[ "fromAddress" := JStr Examples.payTo; "toAddress" := JStr Examples.payTo ]}
    ∈ traceOf (route (Examples.config false)
                 (Examples.request (Some Examples.paidHash)
                    [("address", JStr Examples.payTo)])
                 (Examples.world 10000
                    (JObj [("transfers", JArr []); ("pageKey", JStr "cursor-2")])) ∅) /\
  provider (Examples.world 10000
              (JObj [("transfers", JArr []); ("pageKey", JStr "cursor-2")]))
    {[ "fromAddress" := JStr Examples.payTo; "toAddress" := JStr Examples.payTo ]}
  = Normal (JObj [("transfers", JArr []); ("pageKey", JStr "cursor-2")]) /\
  member (JObj [("transfers", JArr []); ("pageKey", JStr "cursor-2")]) "pageKey"
  = Normal (JStr "cursor-2") /\
  exists body,
    resultOf (route (Examples.config false)
                (Examples.request (Some Examples.paidHash)
                   [("address", JStr Examples.payTo)])
                (Examples.world 10000
                   (JObj [("transfers", JArr []); ("pageKey", JStr "cursor-2")])) ∅)
    = Json 200 body /\
    optMember body "data" = JObj [("transfers", JArr []); ("pageKey", JStr "cursor-2")] /\
    optMember (optMember body "pagination") "pageKey" = JStr "cursor-2" /\
    optMember (optMember body "pagination") "hasMore" = JBool (truthy (JStr "cursor-2")) /\
    (forall s, JStr "cursor-2" = JStr s -> (truthy (JStr "cursor-2") = true <-> s <> "")) /\
    (JStr "cursor-2" = JUndefined -> truthy (JStr "cursor-2") = false).
Proof.
  assert (Hcall :
    ProviderCall {[ "fromAddress" := JStr Examples.payTo; "toAddress" := JStr Examples.payTo ]}
      ∈ traceOf (route (Examples.config false)
                   (Examples.request (Some Examples.paidHash)
                      [("address", JStr Examples.payTo)])
                   (Examples.world 10000
                      (JObj [("transfers", JArr []); ("pageKey", JStr "cursor-2")])) ∅)).
  { vm_compute. do 3 apply list_elem_of_further. apply list_elem_of_here. }
  split; [exact Hcall|]. do 2 (split; [reflexivity|]).
  exact (pagination_passes_cursor_through _ _ _ _ _ _ _ Hcall eq_refl eq_refl).
Defined.

(** C9, counterexample. [fromAddress] is supplied, as the empty string, next
    to [address]: the query handed to the provider carries the [address]
    under [fromAddress], not the supplied value. *)
Lemma empty_fromAddress_counterexample :
  query (Examples.request (Some Examples.paidHash)
           [("address", JStr Examples.payTo); ("fromAddress", JStr "")]) !! "fromAddress"
  = Some (JStr "") /\
  traceOf (handler (Examples.request (Some Examples.paidHash)
                      [("address", JStr Examples.payTo); ("fromAddress", JStr "")])
             (Examples.world 10000 Examples.emptyPage) ∅)
  = [ LogInfo "Processing transfers request";
      ProviderCall {[ "fromAddress" := JStr Examples.payTo;
                      "toAddress" := JStr Examples.payTo ]} ].
Proof. split; reflexivity. Qed.

(** C9, amended. In the query the route hands to the provider, for a
    request whose [address] is present: an absent [fromAddress] is replaced
    by [address], and so is an absent [toAddress]; a supplied [fromAddress]
    or [toAddress] that is truthy (a string that is not empty) is kept and
    takes precedence over [address]; one that is supplied but falsy (the
    empty string) is replaced by [address] like an absent one. *)
Theorem address_fills_missing_filters (cfg : GateConfig) (req : Request) (w : World)
    (c : gmap string CacheEntry) (qp : gmap string JsVal) (address : JsVal) :
  ProviderCall qp ∈ traceOf (route cfg req w c) ->
  query req !! "address" = Some address ->
  (query req !! "fromAddress" = None -> qp !! "fromAddress" = Some address) /\
  (query req !! "toAddress" = None -> qp !! "toAddress" = Some address) /\
  (forall v, query req !! "fromAddress" = Some v ->
             qp !! "fromAddress" = Some (if truthy v then v else address)) /\
  (forall v, query req !! "toAddress" = Some v ->
             qp !! "toAddress" = Some (if truthy v then v else address)).
Proof.
  intros Hcall Haddr.
  destruct (route_provider_call cfg req w c qp Hcall) as (_ & _ & _ & Hb & _).
  destruct (buildQueryParams_lookup _ _ Hb) as (Hfrom & Hto & _).
  rewrite Hfrom, Hto, (prop_present _ _ _ Haddr). unfold jsOr.
  repeat split.
  - intros Hf. by rewrite (prop_absent _ _ Hf).
  - intros Ht. by rewrite (prop_absent _ _ Ht).
  - intros v Hf. by rewrite (prop_present _ _ _ Hf).
  - intros v Ht. by rewrite (prop_present _ _ _ Ht).
Qed.

Lemma address_fills_missing_filters_witness :
  ProviderCall {[ "fromAddress" := JStr Examples.payTo; "toAddress" := JStr "recipient-B" ]}
    ∈ traceOf (route (Examples.config false)
                 (Examples.request (Some Examples.paidHash)
                    [("address", JStr Examples.payTo); ("toAddress", JStr "recipient-B")])
                 (Examples.world 10000 Examples.emptyPage) ∅) /\
  query (Examples.request (Some Examples.paidHash)
           [("address", JStr Examples.payTo); ("toAddress", JStr "recipient-B")]) !! "address"
  = Some (JStr Examples.payTo) /\
  ({[ "fromAddress" := JStr Examples.payTo; "toAddress" := JStr "recipient-B" ]}
     : gmap string JsVal) !! "fromAddress" = Some (JStr Examples.payTo) /\
  ({[ "fromAddress" := JStr Examples.payTo; "toAddress" := JStr "recipient-B" ]}
     : gmap string JsVal) !! "toAddress" = Some (JStr "recipient-B").
Proof.
  assert (Hcall :
    ProviderCall {[ "fromAddress" := JStr Examples.payTo; "toAddress" := JStr "recipient-B" ]}
      ∈ traceOf (route (Examples.config false)
                   (Examples.request (Some Examples.paidHash)
                      [("address", JStr Examples.payTo); ("toAddress", JStr "recipient-B")])
                   (Examples.world 10000 Examples.emptyPage) ∅)).
  { vm_compute. do 3 apply list_elem_of_further. apply list_elem_of_here. }
  split; [exact Hcall|]. split; [reflexivity|].
  destruct (address_fills_missing_filters _ _ _ _ _ _ Hcall eq_refl)
    as (Hfrom & _ & _ & Hto).
  split; [exact (Hfrom eq_refl)|exact (Hto _ eq_refl)].
Defined.

End TransfersSpec.

(** * Properties of the payment gate and verifier *)

Module PaymentSpec.
Import Js Core Payment Tactics.

(** A run of the verifier: the verdict, the cache as it was, one ledger
    read. *)
Lemma verify_run (hash : string) (r : PaymentRequirement) (w : World)
    (c : gmap string CacheEntry) :
  verify hash r w c = (resultOf (verify hash r w c), c, [LedgerQuery hash (network r)]).
Proof. reflexivity. Qed.

Lemma verify_verified_hash (hash : string) (r : PaymentRequirement) (w : World)
    (c : gmap string CacheEntry) (a t : Z) (h : string) :
  resultOf (verify hash r w c) = Verified a t h -> h = hash.
Proof.
  unfold verify. unfold_eff. cbn.
  repeat (case_match; try discriminate). by intros [= _ _ ->].
Qed.

(** A run of the gate, branch by branch. *)
Lemma gate_run (options : Options) (cfg : GateConfig) (req : Request) (w : World)
    (c : gmap string CacheEntry) :
  gate options cfg req w c =
    match headers req !! proofHeader with
    | None => (Challenge (challenge options cfg), c, [])
    | Some proof =>
        if String.eqb proof bypassToken && developmentMode cfg
        then (Accepted (DevModeBypass (minimumAmount (requirement cfg)) (clock w) proof), c, [])
        else
          match c !! proof with
          | Some entry => (Accepted (verdict entry), c, [])
          | None =>
              let v := resultOf (verify proof (requirement cfg) w c) in
              if cacheEligible v
              then (Accepted v, <[proof := {| verdict := v; createdAt := clock w |}]> c,
                    [LedgerQuery proof (network (requirement cfg)); CachePut proof v])
              else (Rejected v, c, [LedgerQuery proof (network (requirement cfg))])
          end
    end.
Proof.
  unfold gate.
  destruct (headers req !! proofHeader) as [proof|]; [|done].
  destruct (String.eqb proof bypassToken && developmentMode cfg); [done|].
  unfold_eff. cbn.
  destruct (c !! proof) as [entry|] eqn:Hc; rewrite ?Hc; [done|].
  rewrite verify_run. cbn.
  assert (Hnb : forall a t h, resultOf (verify proof (requirement cfg) w c)
                              <> DevModeBypass a t h).
  { intros a t h. unfold verify. unfold_eff. cbn. repeat case_match; discriminate. }
  destruct (resultOf (verify proof (requirement cfg) w c)) as [a t h|a t h| | | | |];
    cbn; try done.
  by destruct (Hnb a t h).
Qed.

(** The verifier never answers with the bypass verdict: a verdict of its that
    may be cached is [Verified], under the hash it was asked about. *)
Lemma verify_eligible (hash : string) (r : PaymentRequirement) (w : World)
    (c : gmap string CacheEntry) :
  cacheEligible (resultOf (verify hash r w c)) = true ->
  exists a t, resultOf (verify hash r w c) = Verified a t hash.
Proof.
  unfold verify. unfold_eff. cbn.
  repeat case_match; cbn; try discriminate; eauto.
Qed.

(** ** Comparison of addresses *)

Lemma N_of_lowerChar (x : ascii) :
  N_of_ascii (lowerChar x)
  = (if (65 <=? N_of_ascii x) && (N_of_ascii x <=? 90)
     then N_of_ascii x + 32 else N_of_ascii x)%N.
Proof.
  unfold lowerChar. cbv zeta.
  destruct ((65 <=? N_of_ascii x) && (N_of_ascii x <=? 90))%N eqn:Hup; [|done].
  apply andb_prop in Hup as [Hlo Hhi]. apply N.leb_le in Hlo, Hhi.
  apply N_ascii_embedding. lia.
Qed.

Lemma N_of_ascii_inj (x y : ascii) : N_of_ascii x = N_of_ascii y -> x = y.
Proof.
  intros Heq. rewrite <- (ascii_N_embedding x), <- (ascii_N_embedding y). by rewrite Heq.
Qed.

(** Two characters have the same lower-case form exactly when they are the
    same letter. *)
Lemma lowerChar_sameLetter (x y : ascii) : lowerChar x = lowerChar y <-> sameLetter x y.
Proof.
  unfold sameLetter. split.
  - intros Heq. apply (f_equal N_of_ascii) in Heq. rewrite !N_of_lowerChar in Heq.
    destruct (N.leb_spec 65 (N_of_ascii x)), (N.leb_spec (N_of_ascii x) 90),
             (N.leb_spec 65 (N_of_ascii y)), (N.leb_spec (N_of_ascii y) 90);
      cbn in Heq;
      first [ left; apply N_of_ascii_inj; lia
            | right; left; lia
            | right; right; lia ].
  - intros Hsame. apply N_of_ascii_inj. rewrite !N_of_lowerChar.
    destruct Hsame as [->|[[Hx Hy]|[Hy Hx]]]; [done| |].
    + destruct (N.leb_spec 65 (N_of_ascii x)), (N.leb_spec (N_of_ascii x) 90),
               (N.leb_spec 65 (N_of_ascii y)), (N.leb_spec (N_of_ascii y) 90);
        cbn; lia.
    + destruct (N.leb_spec 65 (N_of_ascii x)), (N.leb_spec (N_of_ascii x) 90),
               (N.leb_spec 65 (N_of_ascii y)), (N.leb_spec (N_of_ascii y) 90);
        cbn; lia.
Qed.

Lemma toLowerCase_equalIgnoringCase (a b : string) :
  toLowerCase a = toLowerCase b <-> equalIgnoringCase a b.
Proof.
  revert b. induction a as [|x a IH]; intros [|y b]; cbn.
  - split; [constructor|done].
  - split; [discriminate|inversion 1].
  - split; [discriminate|inversion 1].
  - split.
    + intros [= Hc Hrest]. constructor; [by apply lowerChar_sameLetter|by apply IH].
    + inversion 1 as [|? ? ? ? Hc Hrest]; subst.
      f_equal; [by apply lowerChar_sameLetter|by apply IH].
Qed.

(** The verifier's comparison of addresses is equality up to the case of the
    letters. *)
Lemma sameAddress_equalIgnoringCase (a b : string) :
  sameAddress a b = true <-> equalIgnoringCase a b.
Proof.
  unfold sameAddress. rewrite String.eqb_eq. apply toLowerCase_equalIgnoringCase.
Qed.

(** ** The gate in two steps *)

(** The gate up to its cache lookup: no effect, the cache as it was. *)
Lemma consultCache_run (options : Options) (cfg : GateConfig) (req : Request) (w : World)
    (c : gmap string CacheEntry) :
  consultCache options cfg req w c =
    match headers req !! proofHeader with
    | None => (Settled (Challenge (challenge options cfg)), c, [])
    | Some proof =>
        if String.eqb proof bypassToken && developmentMode cfg
        then (Settled (Accepted (DevModeBypass (minimumAmount (requirement cfg))
                                   (clock w) proof)), c, [])
        else
          match c !! proof with
          | Some entry => (Settled (Accepted (verdict entry)), c, [])
          | None => (Missed proof, c, [])
          end
    end.
Proof.
  unfold consultCache.
  destruct (headers req !! proofHeader) as [proof|]; [|done].
  destruct (String.eqb proof bypassToken && developmentMode cfg); [done|].
  unfold_eff. cbn.
  by destruct (c !! proof) as [entry|] eqn:Hc; rewrite ?Hc.
Qed.

(** The gate after a miss: one ledger read, and one write for a verdict that
    may be cached. *)
Lemma verifyAndStore_run (cfg : GateConfig) (proof : string) (w : World)
    (c : gmap string CacheEntry) :
  verifyAndStore cfg proof w c =
    let v := resultOf (verify proof (requirement cfg) w c) in
    if cacheEligible v
    then (Accepted v, <[proof := {| verdict := v; createdAt := clock w |}]> c,
          [LedgerQuery proof (network (requirement cfg)); CachePut proof v])
    else (Rejected v, c, [LedgerQuery proof (network (requirement cfg))]).
Proof.
  unfold verifyAndStore. unfold_eff. cbn. rewrite verify_run. cbn.
  destruct (cacheEligible (resultOf (verify proof (requirement cfg) w c))) eqn:Hv.
  - destruct (verify_eligible _ _ _ _ Hv) as (a & t & ->). done.
  - by destruct (resultOf (verify proof (requirement cfg) w c)).
Qed.

(** A request served with nothing in between is the lookup followed at once
    by the verification of the proof that missed. *)
Lemma gate_in_two_steps (options : Options) (cfg : GateConfig) (req : Request) (w : World)
    (c : gmap string CacheEntry) :
  gate options cfg req w c =
    match resultOf (consultCache options cfg req w c) with
    | Settled outcome => (outcome, c, [])
    | Missed proof => verifyAndStore cfg proof w c
    end.
Proof.
  rewrite gate_run, consultCache_run.
  destruct (headers req !! proofHeader) as [proof|]; [|done].
  destruct (String.eqb proof bypassToken && developmentMode cfg); [done|].
  destruct (c !! proof) as [entry|]; [done|].
  cbn. by rewrite verifyAndStore_run.
Qed.

(** Whatever the interleaving, every entry of the cache is a [Verified]
    verdict filed under its own transaction hash. *)
Lemma interleaved_verified (c : gmap string CacheEntry)
    (inFlight : list (GateConfig * string)) :
  interleaved c inFlight ->
  forall hash entry, c !! hash = Some entry ->
    exists a t, verdict entry = Verified a t hash.
Proof.
  induction 1 as [|options cfg req w c inFlight _ IH|cfg proof w c before after _ IH];
    intros hash entry.
  - by rewrite lookup_empty.
  - rewrite consultCache_run.
    destruct (headers req !! proofHeader) as [proof|]; cbn; [|by apply IH].
    destruct (String.eqb proof bypassToken && developmentMode cfg); cbn; [by apply IH|].
    destruct (c !! proof) as [hit|]; cbn; by apply IH.
  - rewrite verifyAndStore_run. cbv zeta.
    destruct (cacheEligible (resultOf (verify proof (requirement cfg) w c))) eqn:Hv;
      cbn; [|by apply IH].
    destruct (verify_eligible _ _ _ _ Hv) as (a & t & Hver).
    destruct (decide (proof = hash)) as [->|Hne].
    + rewrite lookup_insert_eq. intros [= <-]. cbn. eauto.
    + rewrite lookup_insert_ne by done. by apply IH.
Qed.




(** C2, counterexample. A finalized, successful transaction whose transfer
    goes to the required recipient with a sufficient amount, in another
    token: none of the checks the claim lists fails, and the verdict is
    [WrongRecipient], not [Verified]. *)
Lemma other_token_counterexample :
  ledger Examples.verdicts "other-token" (network Examples.requirement0)
  = Some (Examples.transaction true Succeeded "So11111111111111111111111111111111111111112"
            Examples.payTo 10000) /\
  Examples.payTo = recipientAddress Examples.requirement0 /\
  minimumAmount Examples.requirement0 - tolerance Examples.requirement0 <= 10000 /\
  resultOf (verify "other-token" Examples.requirement0 Examples.verdicts ∅) = WrongRecipient /\
  resultOf (verify "other-token" Examples.requirement0 Examples.verdicts ∅)
  <> Verified 10000 1700000000 "other-token".
Proof. repeat split; try reflexivity; [cbn; lia|discriminate]. Qed.

(** C2, amended. The verifier reads the ledger once, writes nothing, and
    returns the verdict of the first check that fails, in this order:
    [NotFound] when the ledger has no such transaction; [Pending] when it is
    not finalized; [TransactionFailed] when its execution failed;
    [WrongRecipient] when it carries no token transfer, when the transfer is
    in another token than the required one, or when its recipient differs
    from the required address in more than the case of letters;
    [InsufficientAmount] when the amount is below the minimum less the
    tolerance; otherwise [Verified] with the observed amount and the
    transaction's timestamp. *)
Theorem verify_decision_list (hash : string) (r : PaymentRequirement) (w : World)
    (c : gmap string CacheEntry) :
  cacheOf (verify hash r w c) = c /\
  traceOf (verify hash r w c) = [LedgerQuery hash (network r)] /\
  (ledger w hash (network r) = None -> resultOf (verify hash r w c) = NotFound) /\
  (forall tx, ledger w hash (network r) = Some tx ->
     (finalized tx = false -> resultOf (verify hash r w c) = Pending) /\
     (finalized tx = true -> status tx = Failed ->
        resultOf (verify hash r w c) = TransactionFailed) /\
     (finalized tx = true -> status tx = Succeeded -> transferEvent tx = None ->
        resultOf (verify hash r w c) = WrongRecipient) /\
     (forall transfer,
        finalized tx = true -> status tx = Succeeded -> transferEvent tx = Some transfer ->
        (token transfer <> tokenContract r ->
           resultOf (verify hash r w c) = WrongRecipient) /\
        (token transfer = tokenContract r ->
         ~ equalIgnoringCase (recipient transfer) (recipientAddress r) ->
           resultOf (verify hash r w c) = WrongRecipient) /\
        (token transfer = tokenContract r ->
         equalIgnoringCase (recipient transfer) (recipientAddress r) ->
         amount transfer < minimumAmount r - tolerance r ->
           resultOf (verify hash r w c) = InsufficientAmount) /\
        (token transfer = tokenContract r ->
         equalIgnoringCase (recipient transfer) (recipientAddress r) ->
         minimumAmount r - tolerance r <= amount transfer ->
           resultOf (verify hash r w c) = Verified (amount transfer) (timestamp tx) hash))).
Proof.
  split; [done|]. split; [done|].
  unfold verify. unfold_eff. cbn.
  split; [by intros ->|].
  intros tx ->. cbn. split_and!.
  - by intros ->.
  - by intros -> ->.
  - by intros -> -> ->.
  - intros transfer -> -> ->. cbn. split_and!.
    + intros Hne. by destruct (String.eqb_spec (token transfer) (tokenContract r)).
    + intros -> Hne. rewrite String.eqb_refl. cbn.
      destruct (sameAddress (recipient transfer) (recipientAddress r)) eqn:Hsame; [|done].
      by apply sameAddress_equalIgnoringCase in Hsame.
    + intros -> Hsame Hlt. apply sameAddress_equalIgnoringCase in Hsame.
      rewrite String.eqb_refl, Hsame. cbn.
      by destruct (Z.ltb_spec (amount transfer) (minimumAmount r - tolerance r)); [|lia].
    + intros -> Hsame Hge. apply sameAddress_equalIgnoringCase in Hsame.
      rewrite String.eqb_refl, Hsame. cbn.
      by destruct (Z.ltb_spec (amount transfer) (minimumAmount r - tolerance r)); [lia|].
Qed.

(** Addresses that differ in the case of a letter are the same to the
    verifier; addresses that differ in a letter are not. *)
Example equalIgnoringCase_examples :
  equalIgnoringCase "64SWUFWG5RDSC3SDUHRKEFYJTY5Q1EKOIXCPG3ZSVPCG" Examples.payTo /\
  equalIgnoringCase "0xAbCdEf" "0xabcdef" /\
  ~ equalIgnoringCase "0xabcdef" "0xabcdee" /\
  ~ equalIgnoringCase "7xKXtg2CW87d97TXJSDpbD5jBkheTqA83TZRuJosgAsU" Examples.payTo.
Proof.
  split_and!.
  - by apply sameAddress_equalIgnoringCase.
  - by apply sameAddress_equalIgnoringCase.
  - intros Hsame. by apply sameAddress_equalIgnoringCase in Hsame.
  - intros Hsame. by apply sameAddress_equalIgnoringCase in Hsame.
Qed.

(** One transaction per verdict; the recipient written in upper case is the
    required one. *)
Example verify_examples :
  resultOf (verify "missing" Examples.requirement0 Examples.verdicts ∅) = NotFound /\
  resultOf (verify "pending" Examples.requirement0 Examples.verdicts ∅) = Pending /\
  resultOf (verify "failed" Examples.requirement0 Examples.verdicts ∅) = TransactionFailed /\
  resultOf (verify "other-token" Examples.requirement0 Examples.verdicts ∅) = WrongRecipient /\
  resultOf (verify "other-recipient" Examples.requirement0 Examples.verdicts ∅)
  = WrongRecipient /\
  resultOf (verify "short" Examples.requirement0 Examples.verdicts ∅) = InsufficientAmount /\
  resultOf (verify "upper-case" Examples.requirement0 Examples.verdicts ∅)
  = Verified 9999 1700000000 "upper-case".
Proof. repeat split; reflexivity. Qed.

(** C3. For a transaction that passes the existence, finality, status,
    token-contract and recipient checks: an amount equal to the minimum less
    the tolerance is [Verified]; any amount below it, one unit below
    included, is [InsufficientAmount]. *)
Theorem amount_boundary (hash : string) (r : PaymentRequirement) (w : World)
    (c : gmap string CacheEntry) (tx : Transaction) (transfer : TransferEvent) :
  ledger w hash (network r) = Some tx ->
  finalized tx = true ->
  status tx = Succeeded ->
  transferEvent tx = Some transfer ->
  token transfer = tokenContract r ->
  sameAddress (recipient transfer) (recipientAddress r) = true ->
  (amount transfer = minimumAmount r - tolerance r ->
     resultOf (verify hash r w c) = Verified (minimumAmount r - tolerance r) (timestamp tx) hash) /\
  (amount transfer < minimumAmount r - tolerance r ->
     resultOf (verify hash r w c) = InsufficientAmount) /\
  (amount transfer = minimumAmount r - tolerance r - 1 ->
     resultOf (verify hash r w c) = InsufficientAmount).
Proof.
  intros Hl Hf Hs Ht Htok Hrec.
  unfold verify. unfold_eff. cbn.
  rewrite Hl, Hf, Hs, Ht, Htok, Hrec, String.eqb_refl. cbn.
  repeat split.
  - intros ->. by rewrite Z.ltb_irrefl.
  - intros Hlt. by destruct (Z.ltb_spec (amount transfer) (minimumAmount r - tolerance r)); [|lia].
  - intros Heq. by destruct (Z.ltb_spec (amount transfer) (minimumAmount r - tolerance r)); [|lia].
Qed.

Lemma amount_boundary_witness :
  ledger (Examples.world 9999 Examples.emptyPage) Examples.paidHash
    (network Examples.requirement0) = Some (Examples.transferOf 9999) /\
  finalized (Examples.transferOf 9999) = true /\
  status (Examples.transferOf 9999) = Succeeded /\
  resultOf (verify Examples.paidHash Examples.requirement0
              (Examples.world 9999 Examples.emptyPage) ∅)
  = Verified 9999 1700000000 Examples.paidHash.
Proof.
  do 3 (split; [reflexivity|]).
  exact (proj1 (amount_boundary Examples.paidHash Examples.requirement0
                  (Examples.world 9999 Examples.emptyPage) ∅ (Examples.transferOf 9999) _
                  eq_refl eq_refl eq_refl eq_refl eq_refl eq_refl) eq_refl).
Defined.

(** C4, counterexample. Two requests carry the same paid hash and both look
    the cache up before either verification has finished: both miss. The
    first verification writes the entry at 1700000100, the second writes it
    again at 1700000200: the entry is not written once. *)
Lemma racing_verifications_counterexample :
  resultOf (consultCache {| price := "0.01" |} (Examples.config false)
              (Examples.request (Some Examples.paidHash) [])
              (Examples.world 10000 Examples.emptyPage) ∅) = Missed Examples.paidHash /\
  interleaved ∅ [(Examples.config false, Examples.paidHash);
                 (Examples.config false, Examples.paidHash)] /\
  interleaved
    (cacheOf (verifyAndStore (Examples.config false) Examples.paidHash
                (Examples.world 10000 Examples.emptyPage) ∅))
    [(Examples.config false, Examples.paidHash)] /\
  cacheOf (verifyAndStore (Examples.config false) Examples.paidHash
             (Examples.world 10000 Examples.emptyPage) ∅) !! Examples.paidHash
  = Some {| verdict := Verified 10000 1700000000 Examples.paidHash;
            createdAt := 1700000100 |} /\
  cacheOf (verifyAndStore (Examples.config false) Examples.paidHash
             (Examples.later (Examples.world 10000 Examples.emptyPage))
             (cacheOf (verifyAndStore (Examples.config false) Examples.paidHash
                         (Examples.world 10000 Examples.emptyPage) ∅))) !! Examples.paidHash
  = Some {| verdict := Verified 10000 1700000000 Examples.paidHash;
            createdAt := 1700000200 |}.
Proof.
  assert (Hboth : interleaved ∅ [(Examples.config false, Examples.paidHash);
                                 (Examples.config false, Examples.paidHash)]).
  { exact (interleaved_lookup {| price := "0.01" |} (Examples.config false)
             (Examples.request (Some Examples.paidHash) [])
             (Examples.world 10000 Examples.emptyPage) ∅ _
             (interleaved_lookup {| price := "0.01" |} (Examples.config false)
                (Examples.request (Some Examples.paidHash) [])
                (Examples.world 10000 Examples.emptyPage) ∅ _ interleaved_start)). }
  split_and!; try reflexivity; [exact Hboth|].
  exact (interleaved_finish (Examples.config false) Examples.paidHash
           (Examples.world 10000 Examples.emptyPage) ∅ []
           [(Examples.config false, Examples.paidHash)] Hboth).
Qed.

(** C4, amended. With requests served concurrently, in every state the gate
    can be in: each entry of the cache is a [Verified] verdict filed under
    its own hash. A cache lookup writes nothing and queries nothing, and a
    request whose hash is cached is accepted by it. A verification that
    finishes puts at most its own hash, with a [Verified] verdict; a rejected
    one leaves the cache as it was; the entries of other hashes stay as they
    are (the entry of its own hash is written again when another verification
    of that hash has written it in between). A request served with nothing in
    between: every [put] carries a successful verdict, a rejection leaves the
    cache as it was, an entry once written is not changed, and a request
    whose hash is cached is accepted with an empty trace (no ledger query)
    and an unchanged cache. *)
Theorem cache_holds_only_successes (c : gmap string CacheEntry)
    (inFlight : list (GateConfig * string)) :
  interleaved c inFlight ->
  (forall hash entry, c !! hash = Some entry ->
     cacheEligible (verdict entry) = true /\
     exists a t, verdict entry = Verified a t hash) /\
  (forall options cfg req w,
     cacheOf (consultCache options cfg req w c) = c /\
     traceOf (consultCache options cfg req w c) = [] /\
     (forall hash entry,
        headers req !! proofHeader = Some hash ->
        c !! hash = Some entry ->
        exists v, resultOf (consultCache options cfg req w c) = Settled (Accepted v) /\
                  cacheEligible v = true)) /\
  (forall cfg proof w,
     (forall hash v, CachePut hash v ∈ traceOf (verifyAndStore cfg proof w c) ->
                     hash = proof /\ exists a t, v = Verified a t proof) /\
     (forall reason, resultOf (verifyAndStore cfg proof w c) = Rejected reason ->
                     cacheEligible reason = false /\
                     cacheOf (verifyAndStore cfg proof w c) = c) /\
     (forall hash entry, hash <> proof -> c !! hash = Some entry ->
                         cacheOf (verifyAndStore cfg proof w c) !! hash = Some entry)) /\
  (forall options cfg req w,
     (forall hash v, CachePut hash v ∈ traceOf (gate options cfg req w c) ->
                     cacheEligible v = true) /\
     (forall reason, resultOf (gate options cfg req w c) = Rejected reason ->
                     cacheEligible reason = false /\
                     cacheOf (gate options cfg req w c) = c) /\
     (forall hash entry, c !! hash = Some entry ->
                         cacheOf (gate options cfg req w c) !! hash = Some entry) /\
     (forall hash entry,
        headers req !! proofHeader = Some hash ->
        c !! hash = Some entry ->
        (exists v, resultOf (gate options cfg req w c) = Accepted v /\
                   cacheEligible v = true) /\
        traceOf (gate options cfg req w c) = [] /\
        cacheOf (gate options cfg req w c) = c)).
Proof.
  intros Hstate.
  pose proof (interleaved_verified c inFlight Hstate) as Hentries.
  split_and!.
  - intros hash entry Hc. destruct (Hentries hash entry Hc) as (a & t & Hv).
    split; [by rewrite Hv|eauto].
  - intros options cfg req w. rewrite consultCache_run.
    destruct (headers req !! proofHeader) as [proof|] eqn:Hp; cbn; [|done].
    destruct (String.eqb proof bypassToken && developmentMode cfg); cbn.
    { split_and!; try done. intros hash entry _ _. eexists; by split. }
    destruct (c !! proof) as [hit|] eqn:Hc; cbn.
    + split_and!; try done. intros hash entry [= <-] Hc'. rewrite Hc in Hc'. simplify_eq.
      eexists; split; [done|].
      by destruct (Hentries _ _ Hc) as (a & t & ->).
    + split_and!; try done. intros hash entry [= <-] Hc'. by simplify_eq.
  - intros cfg proof w. rewrite verifyAndStore_run. cbv zeta.
    destruct (cacheEligible (resultOf (verify proof (requirement cfg) w c))) eqn:Hv; cbn.
    + split_and!; try done.
      * intros hash v Hin.
        apply elem_of_cons in Hin as [Hin|Hin]; [done|].
        apply list_elem_of_singleton in Hin. simplify_eq.
        split; [done|]. by apply verify_eligible.
      * intros hash entry Hne Hc. by rewrite lookup_insert_ne.
    + split_and!; try done.
      * intros hash v Hin. apply list_elem_of_singleton in Hin. discriminate.
      * by intros reason [= <-].
  - intros options cfg req w. rewrite gate_run.
    destruct (headers req !! proofHeader) as [proof|] eqn:Hp; cbn.
    2: { split_and!; try done. intros hash v Hin. by apply elem_of_nil in Hin. }
    destruct (String.eqb proof bypassToken && developmentMode cfg); cbn.
    { split_and!; try done.
      - intros hash v Hin. by apply elem_of_nil in Hin.
      - intros hash entry _ _. split_and!; try done. eexists; by split. }
    destruct (c !! proof) as [hit|] eqn:Hc; cbn.
    { split_and!; try done.
      - intros hash v Hin. by apply elem_of_nil in Hin.
      - intros hash entry [= <-] Hc'. rewrite Hc in Hc'. simplify_eq.
        split_and!; try done. eexists; split; [done|].
        by destruct (Hentries _ _ Hc) as (a & t & ->). }
    destruct (cacheEligible (resultOf (verify proof (requirement cfg) w c))) eqn:Hv; cbn.
    + split_and!; try done.
      * intros hash v Hin.
        apply elem_of_cons in Hin as [Hin|Hin]; [done|].
        apply list_elem_of_singleton in Hin. by simplify_eq.
      * intros hash entry Hc'. rewrite lookup_insert_ne; [done|]. intros ->. by simplify_eq.
      * intros hash entry [= <-] Hc'. by simplify_eq.
    + split_and!; try done.
      * intros hash v Hin. apply list_elem_of_singleton in Hin. discriminate.
      * by intros reason [= <-].
      * intros hash entry [= <-] Hc'. by simplify_eq.
Qed.

Lemma cache_holds_only_successes_witness :
  interleaved
    (cacheOf (verifyAndStore (Examples.config false) Examples.paidHash
                (Examples.world 10000 Examples.emptyPage) ∅))
    [(Examples.config false, Examples.paidHash)] /\
  (forall hash entry,
     cacheOf (verifyAndStore (Examples.config false) Examples.paidHash
                (Examples.world 10000 Examples.emptyPage) ∅) !! hash = Some entry ->
     cacheEligible (verdict entry) = true /\
     exists a t, verdict entry = Verified a t hash).
Proof.
  assert (Hstate :
    interleaved
      (cacheOf (verifyAndStore (Examples.config false) Examples.paidHash
                  (Examples.world 10000 Examples.emptyPage) ∅))
      [(Examples.config false, Examples.paidHash)]).
  { exact (interleaved_finish (Examples.config false) Examples.paidHash
             (Examples.world 10000 Examples.emptyPage) ∅ []
             [(Examples.config false, Examples.paidHash)]
             (interleaved_lookup {| price := "0.01" |} (Examples.config false)
                (Examples.request (Some Examples.paidHash) [])
                (Examples.world 10000 Examples.emptyPage) ∅ _
                (interleaved_lookup {| price := "0.01" |} (Examples.config false)
                   (Examples.request (Some Examples.paidHash) [])
                   (Examples.world 10000 Examples.emptyPage) ∅ _ interleaved_start))). }
  split; [exact Hstate|].
  exact (proj1 (cache_holds_only_successes _ _ Hstate)).
Defined.

End PaymentSpec.

(** * Properties of the payment script *)

Module SendPaymentSpec.
Import Js SendPayment Tactics.

(** The name the script reads on line 69 is bound in no scope; the constant
    declared under the comment about the transfer signature has another
    name. *)
Lemma signature_not_in_scope :
  lookupBinding "TRANSFER_FUNCTION_SIGNATURE" scopeChain = None /\
  lookupBinding "TOKEN_PROGRAM_ID" scopeChain = Some (Some (JStr TOKEN_PROGRAM_ID)) /\
  resolve "TRANSFER_FUNCTION_SIGNATURE"
  = Throw (ReferenceError "TRANSFER_FUNCTION_SIGNATURE is not defined").
Proof. repeat split; reflexivity. Qed.

(** No run of [sendUSDCPayment] builds or sends a transaction, and none
    returns. *)
Lemma sendUSDCPayment_never_sends (chain : Chain) (privateKey recipient : string)
    (amountInUSDC : Amount) :
  (forall hash, fst (sendUSDCPayment chain privateKey recipient amountInUSDC) <> Returned hash) /\
  forallb (fun ev => match ev with
                     | TransactionBuilt _ | TransactionSent _ | ReceiptAwaited => false
                     | BalanceQuery _ _ => true
                     end)
    (snd (sendUSDCPayment chain privateKey recipient amountInUSDC)) = true.
Proof.
  unfold sendUSDCPayment.
  replace (resolve "TRANSFER_FUNCTION_SIGNATURE")
    with (@Throw JsVal (ReferenceError "TRANSFER_FUNCTION_SIGNATURE is not defined"))
    by reflexivity.
  unfold_script.
  repeat (case_match; simplify_eq; cbn in * ); done.
Qed.

(** C10. A call of [sendUSDCPayment] that gets past the no-balance check and
    the sufficient-balance check throws a ReferenceError when it builds the
    call data: the identifier TRANSFER_FUNCTION_SIGNATURE is bound nowhere
    (the script declares TOKEN_PROGRAM_ID). The only effect performed is the
    balance query; no transaction is built or sent. *)
Theorem transfer_signature_undefined (chain : Chain) (privateKey recipient : string)
    (amountInUSDC : Amount) (senderAddress : string)
    (balanceData tokenBalances balance tokenBalance : JsVal)
    (balanceInSmallestUnit amountInSmallestUnit : Z) :
  walletAddress chain privateKey = Normal senderAddress ->
  getTokenBalances chain senderAddress [USDC_CONTRACT] = Normal balanceData ->
  member balanceData "tokenBalances" = Normal tokenBalances ->
  first tokenBalances = Normal balance ->
  member balance "tokenBalance" = Normal tokenBalance ->
  isString tokenBalance "addr" = false ->
  isString tokenBalance "0x0" = false ->
  BigInt tokenBalance = Normal balanceInSmallestUnit ->
  amountInUSDC = Units amountInSmallestUnit ->
  amountInSmallestUnit <= balanceInSmallestUnit ->
  sendUSDCPayment chain privateKey recipient amountInUSDC
  = (Raised (ReferenceError "TRANSFER_FUNCTION_SIGNATURE is not defined"),
     [BalanceQuery senderAddress [USDC_CONTRACT]]) /\
  lookupBinding "TRANSFER_FUNCTION_SIGNATURE" scopeChain = None /\
  lookupBinding "TOKEN_PROGRAM_ID" scopeChain = Some (Some (JStr TOKEN_PROGRAM_ID)).
Proof.
  intros Hw Hb Hts Hfst Htb Haddr Hzero Hbig -> Hle.
  split; [|split; reflexivity].
  unfold sendUSDCPayment.
  replace (resolve "TRANSFER_FUNCTION_SIGNATURE")
    with (@Throw JsVal (ReferenceError "TRANSFER_FUNCTION_SIGNATURE is not defined"))
    by reflexivity.
  unfold_script.
  rewrite Hw, Hb, Hts, Hfst, Htb, Haddr, Hzero, Hbig. cbn.
  by destruct (Z.gtb_spec amountInSmallestUnit balanceInSmallestUnit); [lia|].
Qed.

Lemma transfer_signature_undefined_witness :
  walletAddress Examples.chain "0xYourPrivateKey"
  = Normal "7xKXtg2CW87d97TXJSDpbD5jBkheTqA83TZRuJosgAsU" /\
  BigInt (JStr "0x989680") = Normal 10000000 /\
  10000 <= 10000000 /\
  sendUSDCPayment Examples.chain "0xYourPrivateKey" Examples.payTo (Units 10000)
  = (Raised (ReferenceError "TRANSFER_FUNCTION_SIGNATURE is not defined"),
     [BalanceQuery "7xKXtg2CW87d97TXJSDpbD5jBkheTqA83TZRuJosgAsU" [USDC_CONTRACT]]).
Proof.
  split; [reflexivity|]. split; [reflexivity|]. split; [lia|].
  refine (proj1 (transfer_signature_undefined Examples.chain "0xYourPrivateKey"
                   Examples.payTo (Units 10000) _ _ _ _ (JStr "0x989680") 10000000 10000
                   eq_refl eq_refl eq_refl eq_refl eq_refl eq_refl eq_refl eq_refl eq_refl _)).
  lia.
Defined.

End SendPaymentSpec.

(** * Facts about the built-ins the sources call *)

Module JsFacts.
Import Js.

Lemma split_length (sep : ascii) (s : string) :
  length (split sep s) = S (occurrences sep s).
Proof.
  induction s as [|c rest IH]; [done|]. cbn.
  destruct (Ascii.eqb c sep); cbn; [by rewrite IH|].
  destruct (split sep rest) as [|piece pieces]; [done|]. cbn in *. lia.
Qed.

Lemma split_pieces_without_separator (sep : ascii) (s : string) :
  Forall (fun piece => occurrences sep piece = 0%nat) (split sep s).
Proof.
  induction s as [|c rest IH]; cbn; [by repeat constructor|].
  destruct (Ascii.eqb c sep) eqn:Hc; [by constructor|].
  destruct (split sep rest) as [|piece pieces].
  - repeat constructor. cbn. by rewrite Hc.
  - inversion IH as [|? ? Hpiece Hpieces]; subst. constructor; [|done].
    cbn. by rewrite Hc.
Qed.

Lemma trimStart_occurrences (c : ascii) (s : string) :
  (occurrences c (trimStart s) <= occurrences c s)%nat.
Proof.
  induction s as [|x rest IH]; cbn; [done|].
  destruct (isWhiteSpace x); cbn; lia.
Qed.

Lemma trimEnd_occurrences (c : ascii) (s : string) :
  (occurrences c (trimEnd s) <= occurrences c s)%nat.
Proof.
  induction s as [|x rest IH]; cbn; [done|].
  destruct (isWhiteSpace x && String.eqb (trimEnd rest) ""); cbn; lia.
Qed.

Lemma trim_occurrences (c : ascii) (s : string) :
  (occurrences c (trim s) <= occurrences c s)%nat.
Proof.
  unfold trim.
  pose proof (trimEnd_occurrences c (trimStart s)).
  pose proof (trimStart_occurrences c s). lia.
Qed.

Lemma trimStart_first (s : string) (c : ascii) :
  firstChar (trimStart s) = Some c -> isWhiteSpace c = false.
Proof.
  induction s as [|x rest IH]; cbn; [done|].
  destruct (isWhiteSpace x) eqn:Hx; [done|]. cbn. by intros [= <-].
Qed.

Lemma trimEnd_last (s : string) (c : ascii) :
  lastChar (trimEnd s) = Some c -> isWhiteSpace c = false.
Proof.
  induction s as [|x rest IH]; cbn; [done|].
  destruct (trimEnd rest) as [|y rest'] eqn:Hrest.
  - destruct (isWhiteSpace x) eqn:Hx; cbn; [done|]. by intros [= <-].
  - rewrite andb_false_r. cbn in *. done.
Qed.

Lemma trimEnd_first (s : string) (c : ascii) :
  firstChar s = Some c -> isWhiteSpace c = false -> firstChar (trimEnd s) = Some c.
Proof.
  destruct s as [|x rest]; cbn; [done|]. intros [= ->] Hc. by rewrite Hc.
Qed.

(** A trimmed text neither starts nor ends with white space. *)
Lemma trim_trimmed (s : string) :
  (forall c, firstChar (trim s) = Some c -> isWhiteSpace c = false) /\
  (forall c, lastChar (trim s) = Some c -> isWhiteSpace c = false).
Proof.
  unfold trim. split; [|apply trimEnd_last].
  intros c.
  destruct (firstChar (trimStart s)) as [x|] eqn:Hfirst.
  - pose proof (trimStart_first s x Hfirst) as Hx.
    rewrite (trimEnd_first _ x Hfirst Hx). by intros [= <-].
  - by destruct (trimStart s).
Qed.

Lemma digits_uint (d : Decimal.uint) (acc : Z) :
  digits 10 (Some acc) (NilEmpty.string_of_uint d) = (Some (uintValue acc d), "").
Proof.
  revert acc. induction d; intros acc; [done|..]; cbn [NilEmpty.string_of_uint digits uintValue];
    apply IHd.
Qed.

Lemma uintValue_of_uint_acc (d : Decimal.uint) (p : positive) :
  uintValue (Zpos p) d = Zpos (Pos.of_uint_acc d p).
Proof.
  revert p. induction d; intros p; [done|..]; cbn [uintValue Pos.of_uint_acc];
    rewrite <- IHd; f_equal; lia.
Qed.

Lemma uintValue_of_uint (d : Decimal.uint) :
  uintValue 0 d = Z.of_N (Pos.of_uint d).
Proof.
  induction d; [done|..]; cbn [uintValue Pos.of_uint Z.of_N]; try exact IHd;
    apply uintValue_of_uint_acc.
Qed.

Lemma digits_uint_start (d : Decimal.uint) :
  d <> Decimal.Nil ->
  digits 10 None (NilEmpty.string_of_uint d) = (Some (uintValue 0 d), "").
Proof.
  intros Hd. destruct d; [done|..].
  - exact (digits_uint d (10 * 0 + 0)).
  - exact (digits_uint d (10 * 0 + 1)).
  - exact (digits_uint d (10 * 0 + 2)).
  - exact (digits_uint d (10 * 0 + 3)).
  - exact (digits_uint d (10 * 0 + 4)).
  - exact (digits_uint d (10 * 0 + 5)).
  - exact (digits_uint d (10 * 0 + 6)).
  - exact (digits_uint d (10 * 0 + 7)).
  - exact (digits_uint d (10 * 0 + 8)).
  - exact (digits_uint d (10 * 0 + 9)).
Qed.

Lemma parseInt_minus (rest : string) :
  parseInt (JStr (String "-" rest))
  = match (digits 10 None rest).1 with
    | Some n => JNum (- n)
    | None => JNaN
    end.
Proof. reflexivity. Qed.

Lemma parseInt_digits (d : Decimal.uint) :
  d <> Decimal.Nil ->
  parseInt (JStr (NilEmpty.string_of_uint d)) = JNum (uintValue 0 d) /\
  parseInt (JStr (String "-" (NilEmpty.string_of_uint d))) = JNum (- uintValue 0 d).
Proof.
  intros Hd. split.
  - transitivity (match (digits 10 None (NilEmpty.string_of_uint d)).1 with
                  | Some n => JNum n
                  | None => JNaN
                  end).
    + by destruct d.
    + by rewrite digits_uint_start.
  - by rewrite parseInt_minus, digits_uint_start.
Qed.

(** Reading back the decimal text of an integer gives the integer, whatever
    its size or sign. *)
Lemma parseInt_decimal (n : Z) : parseInt (JStr (decimal n)) = JNum n.
Proof.
  destruct n as [|p|p]; [done|..]; unfold decimal; cbn [Z.to_int NilZero.string_of_int].
  - pose proof (DecimalPos.Unsigned.to_uint_nonnil p) as Hnil.
    pose proof (DecimalPos.Unsigned.of_to p) as Hof.
    unfold NilZero.string_of_uint.
    destruct (Pos.to_uint p) eqn:Hd; [done|..];
      rewrite <- Hd in *; rewrite (proj1 (parseInt_digits _ Hnil));
      by rewrite uintValue_of_uint, Hof.
  - pose proof (DecimalPos.Unsigned.to_uint_nonnil p) as Hnil.
    pose proof (DecimalPos.Unsigned.of_to p) as Hof.
    unfold NilZero.string_of_uint.
    destruct (Pos.to_uint p) eqn:Hd; [done|..];
      rewrite <- Hd in *; rewrite (proj2 (parseInt_digits _ Hnil));
      by rewrite uintValue_of_uint, Hof.
Qed.

Lemma decimal_truthy (n : Z) : truthy (JStr (decimal n)) = true.
Proof.
  destruct n as [|p|p]; [done| |done].
  unfold decimal. cbn [Z.to_int NilZero.string_of_int]. unfold NilZero.string_of_uint.
  pose proof (DecimalPos.Unsigned.to_uint_nonnil p) as Hnil.
  by destruct (Pos.to_uint p).
Qed.

End JsFacts.

(** * The words of the call data *)

Module CallDataFacts.
Import Js.

Lemma length_repeatChar_app (k : nat) (c : ascii) (s : string) :
  String.length (repeatChar k c ++ s) = (k + String.length s)%nat.
Proof. induction k as [|k IH]; simpl; [done|]. by f_equal. Qed.

Lemma length_padStart (width : nat) (c : ascii) (s : string) :
  String.length (padStart width c s) = Nat.max width (String.length s).
Proof. unfold padStart. rewrite length_repeatChar_app. lia. Qed.

(** Reading the hexadecimal digits of [p] continues the number read so
    far. *)
Lemma digits_of_pos (p : positive) :
  forall rest,
    digits 16 None (HexString.Raw.of_pos p rest) = digits 16 (Some (Zpos p)) rest /\
    digits 16 (Some 0) (HexString.Raw.of_pos p rest) = digits 16 (Some (Zpos p)) rest /\
    (forall v, digits 16 (Some (Zpos v)) (HexString.Raw.of_pos p rest)
               = digits 16 (Some (Zpos (HexString.pos_hex_app v p))) rest).
Proof.
  remember (Pos.to_nat p) as n eqn:Hn. revert p Hn.
  induction (lt_wf n) as [n _ IH]. intros p -> rest.
  assert (Hrec : forall q, (Pos.to_nat q < Pos.to_nat p)%nat -> forall rest,
            digits 16 None (HexString.Raw.of_pos q rest) = digits 16 (Some (Zpos q)) rest /\
            digits 16 (Some 0) (HexString.Raw.of_pos q rest) = digits 16 (Some (Zpos q)) rest /\
            (forall v, digits 16 (Some (Zpos v)) (HexString.Raw.of_pos q rest)
                       = digits 16 (Some (Zpos (HexString.pos_hex_app v q))) rest)).
  { intros q Hq. exact (IH (Pos.to_nat q) Hq q eq_refl). }
  clear IH.
  do 4 try destruct p as [p|p|]; try (split_and!; [reflexivity..|intros v; reflexivity]).
  all: cbn [HexString.Raw.of_pos HexString.pos_hex_app].
  all: match goal with
       | |- digits 16 None (HexString.Raw.of_pos ?q (String ?c ?r)) = _ /\ _ =>
           destruct (Hrec q ltac:(lia) (String c r)) as (Ha & Hb & Hc)
       end; rewrite Ha, Hb;
       (split_and!; [reflexivity | reflexivity | intros v; rewrite Hc; reflexivity]).
Qed.

(** The hexadecimal text of a positive number reads back as the number, with
    or without zeros in front. *)
Lemma wholeNumber_padded (k : nat) (p : positive) :
  wholeNumber 16 (repeatChar k "0" ++ HexString.Raw.of_pos p "") = Some (Zpos p).
Proof.
  destruct (digits_of_pos p "") as (Hnone & Hzero & _).
  assert (Hzeros : forall j, digits 16 (Some 0) (repeatChar j "0" ++ HexString.Raw.of_pos p "")
                             = (Some (Zpos p), "")).
  { induction j as [|j IH]; [exact Hzero|exact IH]. }
  unfold wholeNumber.
  destruct k as [|k].
  - change (repeatChar 0 "0" ++ HexString.Raw.of_pos p "") with (HexString.Raw.of_pos p "").
    by rewrite Hnone.
  - change (digits 16 None (repeatChar (S k) "0" ++ HexString.Raw.of_pos p ""))
      with (digits 16 (Some 0) (repeatChar k "0" ++ HexString.Raw.of_pos p "")).
    by rewrite Hzeros.
Qed.

(** The hexadecimal text of [p] has a digit more than some [k] with
    [16^k <= p]. *)
Lemma length_of_pos (p : positive) :
  forall rest,
    exists k : nat,
      String.length (HexString.Raw.of_pos p rest) = (S k + String.length rest)%nat /\
      16 ^ Z.of_nat k <= Zpos p.
Proof.
  remember (Pos.to_nat p) as n eqn:Hn. revert p Hn.
  induction (lt_wf n) as [n _ IH]. intros p -> rest.
  assert (Hrec : forall q, (Pos.to_nat q < Pos.to_nat p)%nat -> forall rest,
            exists k : nat,
              String.length (HexString.Raw.of_pos q rest) = (S k + String.length rest)%nat /\
              16 ^ Z.of_nat k <= Zpos q).
  { intros q Hq. exact (IH (Pos.to_nat q) Hq q eq_refl). }
  clear IH.
  do 4 try destruct p as [p|p|]; try (exists 0%nat; split; [reflexivity|cbn; lia]).
  all: cbn [HexString.Raw.of_pos].
  all: match goal with
       | |- exists _, String.length (HexString.Raw.of_pos ?q (String ?c ?r)) = _ /\ _ =>
           destruct (Hrec q ltac:(lia) (String c r)) as (k & Hlen & Hpow)
       end; exists (S k); (split; [rewrite Hlen; cbn; lia|]);
       rewrite Nat2Z.inj_succ, Z.pow_succ_r by lia; lia.
Qed.

Lemma wholeNumber_minus (k : nat) (rest : string) :
  wholeNumber 16 (repeatChar k "0" ++ String "-" rest) = None.
Proof.
  assert (Hzeros : forall j acc, exists acc',
            digits 16 acc (repeatChar j "0" ++ String "-" rest) = (acc', String "-" rest)).
  { induction j as [|j IH]; intros acc; [by exists acc|].
    destruct (IH (Some (16 * default 0 acc + 0))) as [acc' Hacc]. by exists acc'. }
  unfold wholeNumber. destruct (Hzeros k None) as [acc' ->]. by destruct acc'.
Qed.

(** X20. The amount word of the call data (line 68). For an amount of at
    least zero and below 16^64 units, [toString(16).padStart(64, '0')] gives
    exactly 64 hexadecimal digits that read back as the amount. For a
    negative amount the text holds a minus sign and is no hexadecimal
    number. *)
Theorem amount_word (n : Z) :
  (0 <= n < 16 ^ 64 ->
   String.length (padStart 64 "0" (toString16 n)) = 64%nat /\
   wholeNumber 16 (padStart 64 "0" (toString16 n)) = Some n) /\
  (n < 0 -> wholeNumber 16 (padStart 64 "0" (toString16 n)) = None).
Proof.
  split.
  - intros [Hlo Hhi]. destruct n as [|p|p]; [by split|clear Hlo|lia].
    rewrite length_padStart. unfold padStart, toString16.
    split; [|apply wholeNumber_padded].
    destruct (length_of_pos p "") as (k & -> & Hpow). cbn [String.length].
    assert (Z.of_nat k < 64); [|lia].
    apply (Z.pow_lt_mono_r_iff 16); lia.
  - intros Hneg. destruct n as [|p|p]; [lia..|].
    unfold padStart, toString16. apply wholeNumber_minus.
Qed.

End CallDataFacts.

(** * Further properties of the transfers route *)

Module TransfersFacts.
Import Js Core Payment Transfers Tactics.

Ltac split_list_parameters q :=
  destruct (truthy (prop q "category")); [destruct (splitTrim (prop q "category"))|];
  (destruct (truthy (prop q "contractAddresses"));
     [destruct (splitTrim (prop q "contractAddresses"))|]);
  cbv beta iota; try discriminate.

Ltac in_list := repeat first [apply list_elem_of_here | apply list_elem_of_further].

Ltac skip_other_keys :=
  rewrite ?TransfersSpec.lookup_optional by discriminate.

Ltac finish_lookup :=
  skip_other_keys; rewrite ?lookup_insert_ne by discriminate; by simplify_map_eq.

(** The optional parameters that are copied as they are. *)
Lemma buildQueryParams_copied (q qp : gmap string JsVal) :
  buildQueryParams q = Normal qp ->
  qp !! "fromBlock" = (if truthy (prop q "fromBlock") then Some (prop q "fromBlock") else None) /\
  qp !! "toBlock" = (if truthy (prop q "toBlock") then Some (prop q "toBlock") else None) /\
  qp !! "pageKey" = (if truthy (prop q "pageKey") then Some (prop q "pageKey") else None) /\
  qp !! "order" = (if truthy (prop q "order") then Some (prop q "order") else None).
Proof.
  unfold buildQueryParams. rewrite !TransfersSpec.jsAnd_same. unfold_completion.
  split_list_parameters q; intros [= <-]; split_and!; skip_other_keys.
  all: match goal with
       | |- _ = (if truthy ?v then _ else _) => destruct (truthy v)
       end; [by rewrite lookup_insert_eq | finish_lookup].
Qed.

(** The two parameters that are split into lists. *)
Lemma buildQueryParams_lists (q qp : gmap string JsVal) :
  buildQueryParams q = Normal qp ->
  (if truthy (prop q "category")
   then exists parsed, splitTrim (prop q "category") = Normal parsed /\
                       qp !! "category" = Some parsed
   else qp !! "category" = None) /\
  (if truthy (prop q "contractAddresses")
   then exists parsed, splitTrim (prop q "contractAddresses") = Normal parsed /\
                       qp !! "contractAddresses" = Some parsed
   else qp !! "contractAddresses" = None).
Proof.
  unfold buildQueryParams. rewrite !TransfersSpec.jsAnd_same. unfold_completion.
  destruct (truthy (prop q "category")); [destruct (splitTrim (prop q "category")) eqn:Hcat|];
    (destruct (truthy (prop q "contractAddresses"));
       [destruct (splitTrim (prop q "contractAddresses")) eqn:Hcon|]);
    cbv beta iota; try discriminate;
    intros [= <-]; split; try (eexists; split; [reflexivity|]); finish_lookup.
Qed.

(** Nothing else is set. *)
Lemma buildQueryParams_keys (q qp : gmap string JsVal) (k : string) :
  buildQueryParams q = Normal qp ->
  k ∉ forwardedKeys ->
  qp !! k = None.
Proof.
  unfold forwardedKeys. rewrite !not_elem_of_cons.
  intros Hb (H1 & H2 & H3 & H4 & H5 & H6 & H7 & H8 & H9 & _). revert Hb.
  unfold buildQueryParams. unfold_completion.
  split_list_parameters q; intros [= <-].
  all: rewrite ?TransfersSpec.lookup_optional by done.
  all: rewrite ?lookup_insert_ne by done.
  all: by rewrite lookup_singleton_ne.
Qed.

(** The handler after the address check, read off the way it can end. *)
Lemma handler_after_check (req : Request) (w : World) (c : gmap string CacheEntry) :
  missingAddress (query req) = false ->
  (exists e, buildQueryParams (query req) = Throw e /\
             handler req w c = (NextError e, c, [])) \/
  (exists qp, buildQueryParams (query req) = Normal qp /\
              handler req w c =
                (match provider w qp ≫= success req with
                 | Normal r => r
                 | Throw e => NextError e
                 end, c, [LogInfo "Processing transfers request"; ProviderCall qp])).
Proof.
  intros Hm. unfold handler. rewrite Hm.
  destruct (buildQueryParams (query req)) as [qp|e]; [right|left]; eauto.
Qed.

Lemma success_status (req : Request) (result : JsVal) (r : Response) :
  success req result = Normal r -> statusOf r = Some 200.
Proof.
  unfold success. unfold_completion.
  destruct (member result "pageKey"); [|done].
  destruct (member result "totalCount"); [|done]. by intros [= <-].
Qed.

(** X1. The handler answers 400 (the Bad Request body) exactly when
    [address], [fromAddress] and [toAddress] are all falsy; a parameter given
    as the empty string counts as missing like an absent one. The 400
    is sent before anything is logged or asked of the provider. *)
Theorem bad_request_exactly_without_address (req : Request) (w : World)
    (c : gmap string CacheEntry) :
  (statusOf (resultOf (handler req w c)) = Some 400 <->
   truthy (prop (query req) "address") = false /\
   truthy (prop (query req) "fromAddress") = false /\
   truthy (prop (query req) "toAddress") = false) /\
  ((forall k, k ∈ ["address"; "fromAddress"; "toAddress"] ->
      query req !! k = None \/ query req !! k = Some (JStr "")) ->
   handler req w c = (Json 400 badRequest, c, [])).
Proof.
  assert (Hiff : missingAddress (query req) = true <->
                 truthy (prop (query req) "address") = false /\
                 truthy (prop (query req) "fromAddress") = false /\
                 truthy (prop (query req) "toAddress") = false).
  { unfold missingAddress. rewrite !andb_true_iff, !negb_true_iff. tauto. }
  split.
  - rewrite <- Hiff. split.
    + destruct (missingAddress (query req)) eqn:Hm; [done|].
      destruct (handler_after_check req w c Hm) as [(e & _ & ->) | (qp & _ & ->)]; cbn; [done|].
      unfold_completion.
      destruct (provider w qp) as [result|e]; [|done].
      destruct (success req result) as [r|e] eqn:Hs; [|done].
      by rewrite (success_status _ _ _ Hs).
    + intros Hm. by rewrite TransfersSpec.handler_bad_request.
  - intros Habsent. apply TransfersSpec.handler_bad_request, Hiff.
    assert (Hk : forall k, k ∈ ["address"; "fromAddress"; "toAddress"] ->
                           truthy (prop (query req) k) = false).
    { intros k Hin. unfold prop. by destruct (Habsent k Hin) as [-> | ->]. }
    split_and!; apply Hk; in_list.
Qed.

(** X2. Only the ten parameters the handler destructures matter: two
    requests that agree on them (and on the payment attached) are handled
    alike, whatever else their query strings carry. *)
Theorem unknown_parameters_ignored (req req' : Request) (w : World)
    (c : gmap string CacheEntry) :
  (forall k, k ∈ queryKeys -> query req !! k = query req' !! k) ->
  payment req = payment req' ->
  handler req w c = handler req' w c.
Proof.
  intros Hagree Hpay.
  assert (Hprop : forall k, k ∈ queryKeys -> prop (query req) k = prop (query req') k).
  { intros k Hin. unfold prop. by rewrite (Hagree k Hin). }
  unfold handler, missingAddress, buildQueryParams, success.
  rewrite Hpay.
  rewrite !(Hprop "address"), !(Hprop "fromAddress"), !(Hprop "toAddress"),
    !(Hprop "category"), !(Hprop "fromBlock"), !(Hprop "toBlock"), !(Hprop "maxCount"),
    !(Hprop "pageKey"), !(Hprop "order"), !(Hprop "contractAddresses");
    try done; unfold queryKeys; in_list.
Qed.

Lemma unknown_parameters_ignored_witness :
  payment (Examples.request None [("address", JStr Examples.payTo); ("limit", JStr "5")])
  = payment (Examples.request (Some "demo") [("address", JStr Examples.payTo)]) /\
  handler (Examples.request None [("address", JStr Examples.payTo); ("limit", JStr "5")])
    (Examples.world 10000 Examples.emptyPage) ∅
  = handler (Examples.request (Some "demo") [("address", JStr Examples.payTo)])
      (Examples.world 10000 Examples.emptyPage) ∅.
Proof.
  split; [reflexivity|].
  apply unknown_parameters_ignored; [|reflexivity].
  intros k Hin. unfold queryKeys in Hin.
  repeat (apply elem_of_cons in Hin as [-> | Hin]; [reflexivity|]).
  by apply elem_of_nil in Hin.
Defined.

(** X3. The query handed to the provider carries [fromAddress] and
    [toAddress] and otherwise only keys among [category],
    [contractAddresses], [fromBlock], [toBlock], [maxCount], [pageKey] and
    [order]: the [address] parameter itself and any unknown parameter are
    never forwarded. At least one of the two address filters is truthy. *)
Theorem forwarded_query_shape (req : Request) (w : World) (c : gmap string CacheEntry)
    (qp : gmap string JsVal) :
  ProviderCall qp ∈ traceOf (handler req w c) ->
  (forall k, is_Some (qp !! k) -> k ∈ forwardedKeys) /\
  qp !! "address" = None /\
  (exists from to,
     qp !! "fromAddress" = Some from /\ qp !! "toAddress" = Some to /\
     (truthy from = true \/ truthy to = true)).
Proof.
  intros Hcall.
  destruct (TransfersSpec.handler_provider_call req w c qp Hcall) as [Hm Hb].
  split_and!.
  - intros k Hsome. destruct (decide (k ∈ forwardedKeys)) as [|Hout]; [done|].
    rewrite (buildQueryParams_keys _ _ k Hb Hout) in Hsome. by destruct Hsome.
  - apply (buildQueryParams_keys _ _ _ Hb). unfold forwardedKeys.
    rewrite !not_elem_of_cons. split_and!; try discriminate. apply not_elem_of_nil.
  - destruct (TransfersSpec.buildQueryParams_lookup _ _ Hb) as (Hfrom & Hto & _).
    do 2 eexists. split_and!; [done..|].
    unfold missingAddress in Hm. unfold jsOr.
    destruct (truthy (prop (query req) "fromAddress")) eqn:Hf; [by left|].
    destruct (truthy (prop (query req) "toAddress")) eqn:Ht; [by right|].
    destruct (truthy (prop (query req) "address")) eqn:Ha; [by left|done].
Qed.

Lemma forwarded_query_shape_witness :
  ProviderCall {[ "fromAddress" := JStr Examples.payTo; "toAddress" := JStr Examples.payTo ]}
    ∈ traceOf (handler (Examples.request None
                          [("address", JStr Examples.payTo); ("limit", JStr "5")])
                 (Examples.world 10000 Examples.emptyPage) ∅) /\
  ({[ "fromAddress" := JStr Examples.payTo; "toAddress" := JStr Examples.payTo ]}
     : gmap string JsVal) !! "address" = None.
Proof.
  assert (Hcall :
    ProviderCall {[ "fromAddress" := JStr Examples.payTo; "toAddress" := JStr Examples.payTo ]}
      ∈ traceOf (handler (Examples.request None
                            [("address", JStr Examples.payTo); ("limit", JStr "5")])
                   (Examples.world 10000 Examples.emptyPage) ∅)).
  { vm_compute. apply list_elem_of_further, list_elem_of_here. }
  split; [exact Hcall|].
  exact (proj1 (proj2 (forwarded_query_shape _ _ _ _ Hcall))).
Defined.

(** X4. [fromBlock], [toBlock], [pageKey] and [order] reach the provider
    unchanged when they are truthy, and are left out when they are absent or
    empty: the cursor of a previous page is handed back as it came. *)
Theorem optional_parameters_pass_through (req : Request) (w : World)
    (c : gmap string CacheEntry) (qp : gmap string JsVal) (k : string) :
  ProviderCall qp ∈ traceOf (handler req w c) ->
  k ∈ ["fromBlock"; "toBlock"; "pageKey"; "order"] ->
  (forall v, query req !! k = Some v -> truthy v = true -> qp !! k = Some v) /\
  (query req !! k = None \/ query req !! k = Some (JStr "") -> qp !! k = None).
Proof.
  intros Hcall Hk.
  destruct (TransfersSpec.handler_provider_call req w c qp Hcall) as [_ Hb].
  destruct (buildQueryParams_copied _ _ Hb) as (H1 & H2 & H3 & H4).
  assert (Hqp : qp !! k = if truthy (prop (query req) k) then Some (prop (query req) k) else None).
  { repeat (apply elem_of_cons in Hk as [-> | Hk]; [done|]). by apply elem_of_nil in Hk. }
  rewrite Hqp. unfold prop. split.
  - intros v -> Hv. cbn. by rewrite Hv.
  - by intros [-> | ->].
Qed.

Lemma optional_parameters_pass_through_witness :
  ProviderCall {[ "fromAddress" := JStr Examples.payTo; "toAddress" := JStr Examples.payTo;
                  "pageKey" := JStr "cursor-2" ]}
    ∈ traceOf (handler (Examples.request None
                          [("address", JStr Examples.payTo); ("pageKey", JStr "cursor-2");
                           ("order", JStr "")])
                 (Examples.world 10000 Examples.emptyPage) ∅) /\
  ({[ "fromAddress" := JStr Examples.payTo; "toAddress" := JStr Examples.payTo;
      "pageKey" := JStr "cursor-2" ]} : gmap string JsVal) !! "pageKey"
  = Some (JStr "cursor-2").
Proof.
  assert (Hcall :
    ProviderCall {[ "fromAddress" := JStr Examples.payTo; "toAddress" := JStr Examples.payTo;
                    "pageKey" := JStr "cursor-2" ]}
      ∈ traceOf (handler (Examples.request None
                            [("address", JStr Examples.payTo); ("pageKey", JStr "cursor-2");
                             ("order", JStr "")])
                   (Examples.world 10000 Examples.emptyPage) ∅)).
  { vm_compute. apply list_elem_of_further, list_elem_of_here. }
  split; [exact Hcall|].
  refine (proj1 (optional_parameters_pass_through _ _ _ _ "pageKey" Hcall _) _ eq_refl eq_refl).
  in_list.
Defined.

(** X5. A [category] or [contractAddresses] parameter that is a string of
    ASCII text is split at its commas: the list forwarded has one entry per
    comma plus one, empty entries are kept, and every entry is trimmed (it
    neither starts nor ends with white space) and holds no comma. *)
Theorem list_parameters_split_and_trimmed (req : Request) (w : World)
    (c : gmap string CacheEntry) (qp : gmap string JsVal) (k text : string) :
  ProviderCall qp ∈ traceOf (handler req w c) ->
  k ∈ ["category"; "contractAddresses"] ->
  query req !! k = Some (JStr text) ->
  text <> "" ->
  isAscii text = true ->
  qp !! k = Some (JArr (map (fun piece => JStr (trim piece)) (split "," text))) /\
  length (split "," text) = S (occurrences "," text) /\
  Forall (fun piece =>
            occurrences "," (trim piece) = 0%nat /\
            (forall x, firstChar (trim piece) = Some x -> isWhiteSpace x = false) /\
            (forall x, lastChar (trim piece) = Some x -> isWhiteSpace x = false))
    (split "," text).
Proof.
  intros Hcall Hk Hq Htext _.
  destruct (TransfersSpec.handler_provider_call req w c qp Hcall) as [_ Hb].
  destruct (buildQueryParams_lists _ _ Hb) as [Hcat Hcon].
  assert (Hprop : prop (query req) k = JStr text) by (unfold prop; by rewrite Hq).
  assert (Htruthy : truthy (JStr text) = true).
  { cbn. by destruct (String.eqb_spec text ""). }
  split_and!.
  - apply elem_of_cons in Hk as [-> | Hk].
    + rewrite Hprop, Htruthy in Hcat. by destruct Hcat as (parsed & [= <-] & ->).
    + apply list_elem_of_singleton in Hk as ->.
      rewrite Hprop, Htruthy in Hcon. by destruct Hcon as (parsed & [= <-] & ->).
  - apply JsFacts.split_length.
  - eapply Forall_impl; [apply JsFacts.split_pieces_without_separator|].
    intros piece Hpiece. cbn beta in Hpiece. split.
    + pose proof (JsFacts.trim_occurrences "," piece). lia.
    + apply JsFacts.trim_trimmed.
Qed.

Lemma list_parameters_split_and_trimmed_witness :
  ProviderCall {[ "fromAddress" := JStr Examples.payTo; "toAddress" := JStr Examples.payTo;
                  "category" := JArr [JStr "external"; JStr ""; JStr "SPL"] ]}
    ∈ traceOf (handler (Examples.request None
                          [("address", JStr Examples.payTo);
                           ("category", JStr "external,, SPL ")])
                 (Examples.world 10000 Examples.emptyPage) ∅) /\
  ({[ "fromAddress" := JStr Examples.payTo; "toAddress" := JStr Examples.payTo;
      "category" := JArr [JStr "external"; JStr ""; JStr "SPL"] ]} : gmap string JsVal)
    !! "category"
  = Some (JArr (map (fun piece => JStr (trim piece)) (split "," "external,, SPL "))).
Proof.
  assert (Hcall :
    ProviderCall {[ "fromAddress" := JStr Examples.payTo; "toAddress" := JStr Examples.payTo;
                    "category" := JArr [JStr "external"; JStr ""; JStr "SPL"] ]}
      ∈ traceOf (handler (Examples.request None
                            [("address", JStr Examples.payTo);
                             ("category", JStr "external,, SPL ")])
                   (Examples.world 10000 Examples.emptyPage) ∅)).
  { vm_compute. apply list_elem_of_further, list_elem_of_here. }
  split; [exact Hcall|].
  refine (proj1 (list_parameters_split_and_trimmed _ _ _ _ "category" "external,, SPL "
                   Hcall _ eq_refl _ eq_refl)); [in_list|discriminate].
Defined.

(** X6. A [category] or [contractAddresses] parameter that is truthy but
    no string (a repeated parameter arrives as an array) makes [split] fail:
    the TypeError goes to [next], nothing is logged and the provider is not
    called. *)
Theorem list_parameter_not_a_string (req : Request) (w : World)
    (c : gmap string CacheEntry) (v : JsVal) :
  missingAddress (query req) = false ->
  truthy v = true ->
  (forall text, v <> JStr text) ->
  (query req !! "category" = Some v \/
   ((query req !! "category" = None \/ exists text, query req !! "category" = Some (JStr text)) /\
    query req !! "contractAddresses" = Some v)) ->
  handler req w c = (NextError (TypeError "split is not a function"), c, []).
Proof.
  intros Hm Hv Hns Hq.
  assert (Hsplit : splitTrim v = Throw (TypeError "split is not a function")).
  { destruct v; try done. by destruct (Hns s). }
  destruct (handler_after_check req w c Hm) as [(e & Hb & ->) | (qp & Hb & _)].
  - revert Hb. unfold buildQueryParams. unfold_completion.
    destruct Hq as [Hcat | [Hcat Hcon]].
    + rewrite (TransfersSpec.prop_present _ _ _ Hcat), Hv, Hsplit. by intros [= <-].
    + rewrite (TransfersSpec.prop_present _ _ _ Hcon), Hv, Hsplit.
      destruct Hcat as [Hcat | [text Hcat]].
      * rewrite (TransfersSpec.prop_absent _ _ Hcat). cbn. by intros [= <-].
      * rewrite (TransfersSpec.prop_present _ _ _ Hcat). cbn.
        destruct (negb (String.eqb text "")); cbn; by intros [= <-].
  - exfalso. destruct (buildQueryParams_lists _ _ Hb) as [Hcat Hcon].
    destruct Hq as [Hq | [_ Hq]].
    + rewrite (TransfersSpec.prop_present _ _ _ Hq), Hv, Hsplit in Hcat.
      by destruct Hcat as (parsed & ? & _).
    + rewrite (TransfersSpec.prop_present _ _ _ Hq), Hv, Hsplit in Hcon.
      by destruct Hcon as (parsed & ? & _).
Qed.

Lemma list_parameter_not_a_string_witness :
  missingAddress (query (Examples.request None
                           [("address", JStr Examples.payTo);
                            ("category", JArr [JStr "SPL"; JStr "NFT"])])) = false /\
  handler (Examples.request None
             [("address", JStr Examples.payTo); ("category", JArr [JStr "SPL"; JStr "NFT"])])
    (Examples.world 10000 Examples.emptyPage) ∅
  = (NextError (TypeError "split is not a function"), ∅, []).
Proof.
  split; [reflexivity|].
  refine (list_parameter_not_a_string
            (Examples.request None
               [("address", JStr Examples.payTo); ("category", JArr [JStr "SPL"; JStr "NFT"])])
            _ _ (JArr [JStr "SPL"; JStr "NFT"]) eq_refl eq_refl _ (or_introl eq_refl)).
  discriminate.
Defined.

(** X7. What the provider does wrong is handed to [next], never swallowed
    and never answered with a success: the error of a rejected call as it
    is, and a TypeError when the call resolves to [undefined] or [null]. The
    call has been made once, after the log line. *)
Theorem provider_failure_goes_to_next (req : Request) (w : World)
    (c : gmap string CacheEntry) (qp : gmap string JsVal) :
  ProviderCall qp ∈ traceOf (handler req w c) ->
  traceOf (handler req w c) = [LogInfo "Processing transfers request"; ProviderCall qp] /\
  (forall e, provider w qp = Throw e -> resultOf (handler req w c) = NextError e) /\
  (provider w qp = Normal JUndefined \/ provider w qp = Normal JNull ->
   resultOf (handler req w c)
   = NextError (TypeError "Cannot read properties of undefined (reading 'pageKey')")).
Proof.
  intros Hcall.
  destruct (TransfersSpec.handler_provider_call req w c qp Hcall) as [Hm Hb].
  rewrite (TransfersSpec.handler_forwards req w c qp Hm Hb). cbn.
  split_and!; [done| |].
  - by intros e ->.
  - by intros [-> | ->].
Qed.

Lemma provider_failure_goes_to_next_witness :
  ProviderCall {[ "fromAddress" := JStr Examples.payTo; "toAddress" := JStr Examples.payTo ]}
    ∈ traceOf (handler (Examples.request None [("address", JStr Examples.payTo)])
                 Examples.verdicts ∅) /\
  resultOf (handler (Examples.request None [("address", JStr Examples.payTo)])
              Examples.verdicts ∅)
  = NextError (Failure "provider unavailable").
Proof.
  assert (Hcall :
    ProviderCall {[ "fromAddress" := JStr Examples.payTo; "toAddress" := JStr Examples.payTo ]}
      ∈ traceOf (handler (Examples.request None [("address", JStr Examples.payTo)])
                   Examples.verdicts ∅)).
  { vm_compute. apply list_elem_of_further, list_elem_of_here. }
  split; [exact Hcall|].
  exact (proj1 (proj2 (provider_failure_goes_to_next _ _ _ _ Hcall)) _ eq_refl).
Defined.

(** X8. A success answer repeats what it was given: [payment.hash],
    [payment.amount] and [payment.timestamp] are those of the payment
    attached to the request (all [undefined], without an error, when none is
    attached), [data] is the provider's result and [pagination.count] its
    [totalCount]. *)
Theorem success_answer_echoes (req : Request) (w : World) (c : gmap string CacheEntry)
    (qp : gmap string JsVal) (fields : list (string * JsVal)) :
  ProviderCall qp ∈ traceOf (handler req w c) ->
  provider w qp = Normal (JObj fields) ->
  exists body,
    resultOf (handler req w c) = Json 200 body /\
    optMember body "success" = JBool true /\
    optMember body "data" = JObj fields /\
    optMember (optMember body "pagination") "count" = assoc "totalCount" fields /\
    (forall k, k ∈ ["hash"; "amount"; "timestamp"] ->
       optMember (optMember body "payment") k = optMember (payment req) k) /\
    (payment req = JUndefined ->
     optMember body "payment"
     = JObj [("hash", JUndefined); ("amount", JUndefined); ("timestamp", JUndefined)]).
Proof.
  intros Hcall Hres.
  destruct (TransfersSpec.handler_provider_call req w c qp Hcall) as [Hm Hb].
  rewrite (TransfersSpec.handler_forwards req w c qp Hm Hb), Hres. cbn.
  eexists. split; [reflexivity|]. cbn. split_and!; try done.
  - intros k Hk.
    repeat (apply elem_of_cons in Hk as [-> | Hk]; [done|]). by apply elem_of_nil in Hk.
  - by intros ->.
Qed.

Lemma success_answer_echoes_witness :
  ProviderCall {[ "fromAddress" := JStr Examples.payTo; "toAddress" := JStr Examples.payTo ]}
    ∈ traceOf (handler (Examples.request None [("address", JStr Examples.payTo)])
                 (Examples.world 10000 Examples.emptyPage) ∅) /\
  exists body,
    resultOf (handler (Examples.request None [("address", JStr Examples.payTo)])
                (Examples.world 10000 Examples.emptyPage) ∅) = Json 200 body /\
    optMember (optMember body "pagination") "count" = JNum 0 /\
    optMember body "payment"
    = JObj [("hash", JUndefined); ("amount", JUndefined); ("timestamp", JUndefined)].
Proof.
  assert (Hcall :
    ProviderCall {[ "fromAddress" := JStr Examples.payTo; "toAddress" := JStr Examples.payTo ]}
      ∈ traceOf (handler (Examples.request None [("address", JStr Examples.payTo)])
                   (Examples.world 10000 Examples.emptyPage) ∅)).
  { vm_compute. apply list_elem_of_further, list_elem_of_here. }
  split; [exact Hcall|].
  destruct (success_answer_echoes _ _ _ _ _ Hcall eq_refl)
    as (body & Hbody & _ & _ & Hcount & _ & Hpay).
  exists body. split; [exact Hbody|]. split; [exact Hcount|exact (Hpay eq_refl)].
Defined.


(** X10. [maxCount] reaches the provider as the number its text denotes,
    without any range check: for every integer of magnitude up to 2^53
    (the integers a Number holds exactly), of either sign, the decimal text
    of the integer is forwarded as that integer. An absent or empty
    [maxCount] is left out (no default is filled in). *)
Theorem maxCount_is_parsed_not_checked (req : Request) (w : World)
    (c : gmap string CacheEntry) (qp : gmap string JsVal) :
  ProviderCall qp ∈ traceOf (handler req w c) ->
  (forall n, - 9007199254740992 <= n <= 9007199254740992 ->
             query req !! "maxCount" = Some (JStr (decimal n)) ->
             qp !! "maxCount" = Some (JNum n)) /\
  (query req !! "maxCount" = None \/ query req !! "maxCount" = Some (JStr "") ->
   qp !! "maxCount" = None).
Proof.
  intros Hcall.
  destruct (TransfersSpec.handler_provider_call req w c qp Hcall) as [_ Hb].
  destruct (TransfersSpec.buildQueryParams_lookup _ _ Hb) as (_ & _ & ->).
  split.
  - intros n _ Hq.
    by rewrite (TransfersSpec.prop_present _ _ _ Hq), JsFacts.parseInt_decimal,
      JsFacts.decimal_truthy.
  - intros [Hq | Hq].
    + by rewrite (TransfersSpec.prop_absent _ _ Hq).
    + by rewrite (TransfersSpec.prop_present _ _ _ Hq).
Qed.

Lemma maxCount_is_parsed_not_checked_witness :
  ProviderCall {[ "fromAddress" := JStr Examples.payTo; "toAddress" := JStr Examples.payTo;
                  "maxCount" := JNum 9007199254740992 ]}
    ∈ traceOf (handler (Examples.request None
                          [("address", JStr Examples.payTo);
                           ("maxCount", JStr "9007199254740992")])
                 (Examples.world 10000 Examples.emptyPage) ∅) /\
  ({[ "fromAddress" := JStr Examples.payTo; "toAddress" := JStr Examples.payTo;
      "maxCount" := JNum 9007199254740992 ]} : gmap string JsVal) !! "maxCount"
  = Some (JNum 9007199254740992).
Proof.
  assert (Hcall :
    ProviderCall {[ "fromAddress" := JStr Examples.payTo; "toAddress" := JStr Examples.payTo;
                    "maxCount" := JNum 9007199254740992 ]}
      ∈ traceOf (handler (Examples.request None
                            [("address", JStr Examples.payTo);
                             ("maxCount", JStr "9007199254740992")])
                   (Examples.world 10000 Examples.emptyPage) ∅)).
  { vm_compute. apply list_elem_of_further, list_elem_of_here. }
  split; [exact Hcall|].
  refine (proj1 (maxCount_is_parsed_not_checked _ _ _ _ Hcall) 9007199254740992 _ eq_refl).
  lia.
Defined.

(** Requests that read alike at the ten parameters the handler destructures
    are handled alike. *)
Lemma handler_reads_queryKeys (req req' : Request) (w : World) (c : gmap string CacheEntry) :
  (forall k, k ∈ queryKeys -> prop (query req) k = prop (query req') k) ->
  payment req = payment req' ->
  handler req w c = handler req' w c.
Proof.
  intros Hprop Hpay.
  unfold handler, missingAddress, buildQueryParams, success.
  rewrite Hpay.
  rewrite !(Hprop "address"), !(Hprop "fromAddress"), !(Hprop "toAddress"),
    !(Hprop "category"), !(Hprop "fromBlock"), !(Hprop "toBlock"), !(Hprop "maxCount"),
    !(Hprop "pageKey"), !(Hprop "order"), !(Hprop "contractAddresses");
    try done; unfold queryKeys; in_list.
Qed.

(** Setting one parameter of a request changes how it is handled: the handler
    depends on that parameter. *)
Lemma dependsOn_intro (k : string) (v : JsVal) (req : Request) (w : World)
    (c : gmap string CacheEntry) :
  handler {| headers := headers req; query := <[k := v]> (query req); payment := payment req |}
    w c <> handler req w c ->
  dependsOn k.
Proof.
  intros Hdiff.
  exists {| headers := headers req; query := <[k := v]> (query req); payment := payment req |},
    req, w, c.
  split_and!; try done.
  intros k' Hne. cbn. by rewrite lookup_insert_ne.
Qed.

(** With an address given, a parameter that is forwarded to the provider
    changes the query the provider receives. *)
Ltac changes_forwarded k v :=
  apply (dependsOn_intro k (JStr v) (Examples.request None [("address", JStr Examples.payTo)])
           (Examples.world 10000 Examples.emptyPage) ∅);
  let Hsame := fresh "Hsame" in
  intros Hsame;
  apply (f_equal (fun run => forwardedIn (traceOf run) k)) in Hsame;
  vm_compute in Hsame; discriminate Hsame.

(** With no address given, an address parameter changes the status of the
    answer. *)
Ltac changes_status k :=
  apply (dependsOn_intro k (JStr Examples.payTo) (Examples.request None [])
           (Examples.world 10000 Examples.emptyPage) ∅);
  let Hsame := fresh "Hsame" in
  intros Hsame;
  apply (f_equal (fun run => statusOf (resultOf run))) in Hsame;
  vm_compute in Hsame; discriminate Hsame.

(** X11. The parameters that [GET /info] documents are exactly the query
    parameters the handler of [GET /] depends on: for each documented
    parameter there are two requests that differ in nothing else and are
    handled differently (another answer, or another query to the provider),
    and for any other parameter there are none. *)
Theorem info_documents_what_the_handler_reads (req : Request) (w : World)
    (c : gmap string CacheEntry) (k : string) :
  k ∈ keysOf (optMember (bodyOf (resultOf (info req w c))) "parameters") <-> dependsOn k.
Proof.
  change (keysOf (optMember (bodyOf (resultOf (info req w c))) "parameters"))
    with ["address"; "fromAddress"; "toAddress"; "category"; "fromBlock"; "toBlock";
          "maxCount"; "pageKey"; "order"; "contractAddresses"].
  split.
  - intros Hin.
    apply elem_of_cons in Hin as [-> | Hin]; [changes_status "address"|].
    apply elem_of_cons in Hin as [-> | Hin]; [changes_status "fromAddress"|].
    apply elem_of_cons in Hin as [-> | Hin]; [changes_status "toAddress"|].
    apply elem_of_cons in Hin as [-> | Hin]; [changes_forwarded "category" "SPL"|].
    apply elem_of_cons in Hin as [-> | Hin]; [changes_forwarded "fromBlock" "0x10"|].
    apply elem_of_cons in Hin as [-> | Hin]; [changes_forwarded "toBlock" "latest"|].
    apply elem_of_cons in Hin as [-> | Hin]; [changes_forwarded "maxCount" "25"|].
    apply elem_of_cons in Hin as [-> | Hin]; [changes_forwarded "pageKey" "cursor-2"|].
    apply elem_of_cons in Hin as [-> | Hin]; [changes_forwarded "order" "desc"|].
    apply elem_of_cons in Hin as [-> | Hin];
      [changes_forwarded "contractAddresses" SendPayment.USDC_CONTRACT|].
    by apply elem_of_nil in Hin.
  - intros (req1 & req2 & w' & c' & _ & Hpay & Hagree & Hdiff).
    destruct (decide (k ∈ ["address"; "fromAddress"; "toAddress"; "category"; "fromBlock";
                           "toBlock"; "maxCount"; "pageKey"; "order"; "contractAddresses"]))
      as [Hin|Hout]; [done|].
    destruct Hdiff. apply handler_reads_queryKeys; [|done].
    intros k' Hin. unfold prop. rewrite Hagree; [done|].
    intros ->. by apply Hout.
Qed.

End TransfersFacts.

(** * Further properties of the payment script *)

Module SendPaymentFacts.
Import Js SendPayment Tactics.

Ltac stop_at_signature :=
  replace (resolve "TRANSFER_FUNCTION_SIGNATURE")
    with (@Throw JsVal (ReferenceError "TRANSFER_FUNCTION_SIGNATURE is not defined"))
    by reflexivity.

(** X12. Every call of [sendUSDCPayment] ends by throwing or by
    [process.exit(1)], never by returning. If the wallet constructor throws,
    nothing has been done; otherwise the one effect of the call is the
    balance query for the USDC contract at the wallet's address. *)
Theorem sendUSDCPayment_outcomes (chain : Chain) (privateKey recipient : string)
    (amountInUSDC : Amount) :
  match walletAddress chain privateKey with
  | Throw e =>
      sendUSDCPayment chain privateKey recipient amountInUSDC = (Raised e, [])
  | Normal senderAddress =>
      snd (sendUSDCPayment chain privateKey recipient amountInUSDC)
      = [BalanceQuery senderAddress [USDC_CONTRACT]] /\
      (fst (sendUSDCPayment chain privateKey recipient amountInUSDC) = Exited 1 \/
       exists e, fst (sendUSDCPayment chain privateKey recipient amountInUSDC) = Raised e)
  end.
Proof.
  unfold sendUSDCPayment. stop_at_signature. unfold_script.
  repeat (case_match; simplify_eq; cbn in * ); eauto.
Qed.

(** X13. The no-balance guard: when the reported token balance is the text
    [addr] or [0x0], the call ends with [process.exit(1)] right after the
    balance query, whatever the recipient and the amount (a non-finite one
    included). *)
Theorem no_balance_exits (chain : Chain) (privateKey recipient : string)
    (amountInUSDC : Amount) (senderAddress : string)
    (balanceData tokenBalances balance tokenBalance : JsVal) :
  walletAddress chain privateKey = Normal senderAddress ->
  getTokenBalances chain senderAddress [USDC_CONTRACT] = Normal balanceData ->
  member balanceData "tokenBalances" = Normal tokenBalances ->
  first tokenBalances = Normal balance ->
  member balance "tokenBalance" = Normal tokenBalance ->
  tokenBalance = JStr "addr" \/ tokenBalance = JStr "0x0" ->
  sendUSDCPayment chain privateKey recipient amountInUSDC
  = (Exited 1, [BalanceQuery senderAddress [USDC_CONTRACT]]).
Proof.
  intros Hw Hb Hts Hfst Htb Hzero.
  unfold sendUSDCPayment. unfold_script.
  rewrite Hw, Hb, Hts, Hfst, Htb.
  by destruct Hzero as [-> | ->].
Qed.

Lemma no_balance_exits_witness :
  walletAddress (Examples.chainWith (JArr [JObj [("tokenBalance", JStr "0x0")]]))
    "0xYourPrivateKey"
  = Normal "7xKXtg2CW87d97TXJSDpbD5jBkheTqA83TZRuJosgAsU" /\
  sendUSDCPayment (Examples.chainWith (JArr [JObj [("tokenBalance", JStr "0x0")]]))
    "0xYourPrivateKey" Examples.payTo NotFinite
  = (Exited 1, [BalanceQuery "7xKXtg2CW87d97TXJSDpbD5jBkheTqA83TZRuJosgAsU" [USDC_CONTRACT]]).
Proof.
  split; [reflexivity|].
  exact (no_balance_exits (Examples.chainWith (JArr [JObj [("tokenBalance", JStr "0x0")]]))
           "0xYourPrivateKey" Examples.payTo NotFinite _ _ _ _ (JStr "0x0")
           eq_refl eq_refl eq_refl eq_refl eq_refl (or_intror eq_refl)).
Defined.

(** X14. The sufficient-balance guard: with a balance that reads as the
    integer [b] and an amount of more than [b] units, the call ends with
    [process.exit(1)] after the balance query. A zero balance written in any
    other way than [0x0] (as a full 32-byte word, say) gets past the
    no-balance guard and is stopped here, for a positive amount. *)
Theorem insufficient_balance_exits (chain : Chain) (privateKey recipient : string)
    (senderAddress : string) (balanceData tokenBalances balance tokenBalance : JsVal)
    (balanceInSmallestUnit amountInSmallestUnit : Z) :
  walletAddress chain privateKey = Normal senderAddress ->
  getTokenBalances chain senderAddress [USDC_CONTRACT] = Normal balanceData ->
  member balanceData "tokenBalances" = Normal tokenBalances ->
  first tokenBalances = Normal balance ->
  member balance "tokenBalance" = Normal tokenBalance ->
  BigInt tokenBalance = Normal balanceInSmallestUnit ->
  balanceInSmallestUnit < amountInSmallestUnit ->
  sendUSDCPayment chain privateKey recipient (Units amountInSmallestUnit)
  = (Exited 1, [BalanceQuery senderAddress [USDC_CONTRACT]]).
Proof.
  intros Hw Hb Hts Hfst Htb Hbig Hlt.
  unfold sendUSDCPayment. unfold_script.
  rewrite Hw, Hb, Hts, Hfst, Htb.
  destruct (isString tokenBalance "addr" || isString tokenBalance "0x0"); [done|].
  rewrite Hbig. cbn.
  by destruct (Z.gtb_spec amountInSmallestUnit balanceInSmallestUnit); [|lia].
Qed.

Lemma insufficient_balance_exits_witness :
  BigInt (JStr "0x0000000000000000000000000000000000000000000000000000000000000000")
  = Normal 0 /\
  0 < 10000 /\
  sendUSDCPayment
    (Examples.chainWith
       (JArr [JObj [("tokenBalance",
                     JStr "0x0000000000000000000000000000000000000000000000000000000000000000")]]))
    "0xYourPrivateKey" Examples.payTo (Units 10000)
  = (Exited 1, [BalanceQuery "7xKXtg2CW87d97TXJSDpbD5jBkheTqA83TZRuJosgAsU" [USDC_CONTRACT]]).
Proof.
  split; [reflexivity|]. split; [lia|].
  refine (insufficient_balance_exits
            (Examples.chainWith
               (JArr [JObj [("tokenBalance",
                  JStr "0x0000000000000000000000000000000000000000000000000000000000000000")]]))
            "0xYourPrivateKey" Examples.payTo _ _ _ _ _ 0 10000
            eq_refl eq_refl eq_refl eq_refl eq_refl eq_refl _).
  lia.
Defined.

(** X15. What goes wrong in the balance step rejects the promise instead of
    ending the process: a failing balance query, a balance list without an
    entry (TypeError), a [null] balance (TypeError), a balance of ASCII text
    that is no integer literal (SyntaxError), and, once the balance is read,
    an amount that is no finite number (RangeError). Each leaves the balance
    query as the only effect. *)
Theorem balance_step_errors (chain : Chain) (privateKey recipient : string)
    (amountInUSDC : Amount) (senderAddress : string) :
  walletAddress chain privateKey = Normal senderAddress ->
  (forall e, getTokenBalances chain senderAddress [USDC_CONTRACT] = Throw e ->
     sendUSDCPayment chain privateKey recipient amountInUSDC
     = (Raised e, [BalanceQuery senderAddress [USDC_CONTRACT]])) /\
  (forall balanceData,
     getTokenBalances chain senderAddress [USDC_CONTRACT] = Normal balanceData ->
     member balanceData "tokenBalances" = Normal (JArr []) ->
     sendUSDCPayment chain privateKey recipient amountInUSDC
     = (Raised (TypeError "Cannot read properties of undefined (reading 'tokenBalance')"),
        [BalanceQuery senderAddress [USDC_CONTRACT]])) /\
  (forall balanceData balance rest,
     getTokenBalances chain senderAddress [USDC_CONTRACT] = Normal balanceData ->
     member balanceData "tokenBalances" = Normal (JArr (balance :: rest)) ->
     member balance "tokenBalance" = Normal JNull ->
     sendUSDCPayment chain privateKey recipient amountInUSDC
     = (Raised (TypeError "Cannot convert to a BigInt"),
        [BalanceQuery senderAddress [USDC_CONTRACT]])) /\
  (forall balanceData balance rest text,
     getTokenBalances chain senderAddress [USDC_CONTRACT] = Normal balanceData ->
     member balanceData "tokenBalances" = Normal (JArr (balance :: rest)) ->
     member balance "tokenBalance" = Normal (JStr text) ->
     text <> "addr" -> text <> "0x0" ->
     isAscii text = true ->
     stringToBigInt text = None ->
     sendUSDCPayment chain privateKey recipient amountInUSDC
     = (Raised (SyntaxError "Cannot convert to a BigInt"),
        [BalanceQuery senderAddress [USDC_CONTRACT]])) /\
  (forall balanceData balance rest text units,
     getTokenBalances chain senderAddress [USDC_CONTRACT] = Normal balanceData ->
     member balanceData "tokenBalances" = Normal (JArr (balance :: rest)) ->
     member balance "tokenBalance" = Normal (JStr text) ->
     text <> "addr" -> text <> "0x0" ->
     stringToBigInt text = Some units ->
     amountInUSDC = NotFinite ->
     sendUSDCPayment chain privateKey recipient amountInUSDC
     = (Raised (RangeError "The number cannot be converted to a BigInt"),
        [BalanceQuery senderAddress [USDC_CONTRACT]])).
Proof.
  intros Hw. unfold sendUSDCPayment. unfold_script. rewrite Hw.
  split_and!.
  - by intros e ->.
  - by intros balanceData -> ->.
  - intros balanceData balance rest -> -> Htb. cbn. by rewrite Htb.
  - intros balanceData balance rest text -> -> Htb Haddr Hzero _ Hbig. cbn. rewrite Htb. cbn.
    destruct (String.eqb_spec text "addr"); [done|].
    destruct (String.eqb_spec text "0x0"); [done|].
    cbn. by rewrite Hbig.
  - intros balanceData balance rest text units -> -> Htb Haddr Hzero Hbig ->. cbn.
    rewrite Htb. cbn.
    destruct (String.eqb_spec text "addr"); [done|].
    destruct (String.eqb_spec text "0x0"); [done|].
    cbn. by rewrite Hbig.
Qed.

Lemma balance_step_errors_witness :
  walletAddress (Examples.chainWith (JArr [])) "0xYourPrivateKey"
  = Normal "7xKXtg2CW87d97TXJSDpbD5jBkheTqA83TZRuJosgAsU" /\
  sendUSDCPayment (Examples.chainWith (JArr [])) "0xYourPrivateKey" Examples.payTo (Units 10000)
  = (Raised (TypeError "Cannot read properties of undefined (reading 'tokenBalance')"),
     [BalanceQuery "7xKXtg2CW87d97TXJSDpbD5jBkheTqA83TZRuJosgAsU" [USDC_CONTRACT]]).
Proof.
  split; [reflexivity|].
  exact (proj1 (proj2 (balance_step_errors (Examples.chainWith (JArr [])) "0xYourPrivateKey"
                         Examples.payTo (Units 10000) _ eq_refl))
           _ eq_refl eq_refl).
Defined.

(** [sendUSDCPayment] followed by anything is [sendUSDCPayment]: it never
    returns. *)
Lemma sendUSDCPayment_then (chain : Chain) (privateKey recipient : string)
    (amountInUSDC : Amount) (k : JsVal -> Script JsVal) :
  sendUSDCPayment chain privateKey recipient amountInUSDC ≫= k
  = sendUSDCPayment chain privateKey recipient amountInUSDC.
Proof.
  pose proof (sendUSDCPayment_outcomes chain privateKey recipient amountInUSDC) as H.
  unfold mbind, Script_bind, sbind.
  destruct (walletAddress chain privateKey).
  - destruct (sendUSDCPayment chain privateKey recipient amountInUSDC) as [[hash|e|code] t];
      cbn in *; try done.
    destruct H as [_ [H | [e H]]]; discriminate.
  - by rewrite H.
Qed.

(** X16. The guards of [main]: without a private key, without
    ALCHEMY_API_KEY in the environment, or without a recipient (neither the
    third argument nor PAYMENT_ADDRESS), each of them absent or empty, the
    script ends with [process.exit(1)] and has done nothing: no wallet is
    created and the chain is not queried. *)
Theorem main_guards (scaled : string -> Amount) (proc : Process) (chain : Chain) :
  nonEmpty (argv proc !! 2%nat) = false \/
  nonEmpty (env proc !! "ALCHEMY_API_KEY") = false \/
  (nonEmpty (argv proc !! 3%nat) = false /\
   nonEmpty (env proc !! "PAYMENT_ADDRESS") = false) ->
  main scaled proc chain = (Exited 1, []) /\
  script scaled proc chain = (ProcessExit 1, []).
Proof.
  intros H.
  assert (Hmain : main scaled proc chain = (Exited 1, [])).
  { unfold main, orElse.
    destruct (argv proc !! 2%nat) as [[|c pk]|] eqn:Hpk; try done.
    destruct H as [H | [H | [H3 Henv]]]; [done| |].
    - by rewrite H.
    - rewrite H3. destruct (nonEmpty (env proc !! "ALCHEMY_API_KEY")); [|done]. cbn.
      by destruct (env proc !! "PAYMENT_ADDRESS") as [[|c' r]|]. }
  split; [done|]. unfold script. by rewrite Hmain.
Qed.

Lemma main_guards_witness :
  nonEmpty (argv (Examples.process ["0xYourPrivateKey"] [("PAYMENT_ADDRESS", Examples.payTo)])
              !! 2%nat) = true /\
  nonEmpty (env (Examples.process ["0xYourPrivateKey"] [("PAYMENT_ADDRESS", Examples.payTo)])
              !! "ALCHEMY_API_KEY") = false /\
  script Examples.scaled
    (Examples.process ["0xYourPrivateKey"] [("PAYMENT_ADDRESS", Examples.payTo)])
    Examples.chain
  = (ProcessExit 1, []).
Proof.
  split; [reflexivity|]. split; [reflexivity|].
  exact (proj2 (main_guards Examples.scaled
                  (Examples.process ["0xYourPrivateKey"] [("PAYMENT_ADDRESS", Examples.payTo)])
                  Examples.chain (or_intror (or_introl eq_refl)))).
Defined.

(** X17. The arguments [main] passes on. The recipient is the third argument
    when it is given and not empty, and PAYMENT_ADDRESS of the environment
    otherwise; the amount is read from the fourth argument when it is given
    and not empty, and from the text 0.01 otherwise. *)
Theorem main_arguments (scaled : string -> Amount) (proc : Process) (chain : Chain)
    (privateKey recipient : string) :
  argv proc !! 2%nat = Some privateKey ->
  privateKey <> "" ->
  nonEmpty (env proc !! "ALCHEMY_API_KEY") = true ->
  recipient <> "" ->
  argv proc !! 3%nat = Some recipient \/
  (nonEmpty (argv proc !! 3%nat) = false /\ env proc !! "PAYMENT_ADDRESS" = Some recipient) ->
  (forall text, argv proc !! 4%nat = Some text -> text <> "" ->
     main scaled proc chain = sendUSDCPayment chain privateKey recipient (scaled text)) /\
  (nonEmpty (argv proc !! 4%nat) = false ->
     main scaled proc chain = sendUSDCPayment chain privateKey recipient (scaled "0.01")).
Proof.
  intros Hpk Hne Hkey Hrne Hrec.
  assert (Hr : orElse (argv proc !! 3%nat) (env proc !! "PAYMENT_ADDRESS") = Some recipient).
  { unfold orElse. destruct Hrec as [-> | [-> ->]]; [|done].
    by destruct recipient. }
  unfold main. rewrite Hpk, Hkey, Hr.
  destruct privateKey as [|c pk]; [done|]. destruct recipient as [|c' r]; [done|]. cbn.
  split.
  - intros text -> Htext. destruct text; [done|]. cbn.
    apply (sendUSDCPayment_then chain _ _ _ (fun _ => mret JUndefined)).
  - intros Hfour. unfold orElse. rewrite Hfour. cbn.
    apply (sendUSDCPayment_then chain _ _ _ (fun _ => mret JUndefined)).
Qed.

Lemma main_arguments_witness :
  argv (Examples.process ["0xYourPrivateKey"; ""; "2.5"]
          [("ALCHEMY_API_KEY", "key"); ("PAYMENT_ADDRESS", Examples.payTo)]) !! 2%nat
  = Some "0xYourPrivateKey" /\
  nonEmpty (argv (Examples.process ["0xYourPrivateKey"; ""; "2.5"]
                    [("ALCHEMY_API_KEY", "key"); ("PAYMENT_ADDRESS", Examples.payTo)])
              !! 3%nat) = false /\
  main Examples.scaled
    (Examples.process ["0xYourPrivateKey"; ""; "2.5"]
       [("ALCHEMY_API_KEY", "key"); ("PAYMENT_ADDRESS", Examples.payTo)])
    Examples.chain
  = sendUSDCPayment Examples.chain "0xYourPrivateKey" Examples.payTo (Units 2500000).
Proof.
  split; [reflexivity|]. split; [reflexivity|].
  refine (proj1 (main_arguments Examples.scaled
                   (Examples.process ["0xYourPrivateKey"; ""; "2.5"]
                      [("ALCHEMY_API_KEY", "key"); ("PAYMENT_ADDRESS", Examples.payTo)])
                   Examples.chain "0xYourPrivateKey" Examples.payTo
                   eq_refl _ eq_refl _ (or_intror (conj eq_refl eq_refl)))
            "2.5" eq_refl _); discriminate.
Defined.

(** X18. The script as a whole, for every command line, environment and
    chain: it never completes with a payment. It ends with
    [process.exit(1)], or with an error handed to [console.error]; it queries
    the chain at most once, for the balance, and sends no transaction. *)
Theorem script_never_pays (scaled : string -> Amount) (proc : Process) (chain : Chain) :
  (fst (script scaled proc chain) = ProcessExit 1 \/
   exists e, fst (script scaled proc chain) = ErrorLogged e) /\
  (snd (script scaled proc chain) = [] \/
   exists senderAddress,
     snd (script scaled proc chain) = [BalanceQuery senderAddress [USDC_CONTRACT]]).
Proof.
  assert (Hcases :
    main scaled proc chain = (Exited 1, []) \/
    exists privateKey recipient amount,
      main scaled proc chain = sendUSDCPayment chain privateKey recipient amount).
  { unfold main.
    destruct (argv proc !! 2%nat) as [[|c pk]|]; eauto.
    destruct (nonEmpty (env proc !! "ALCHEMY_API_KEY")); cbn; eauto.
    destruct (orElse _ _) as [[|c' r]|]; eauto.
    right. do 3 eexists.
    apply (sendUSDCPayment_then chain _ _ _ (fun _ => mret JUndefined)). }
  unfold script.
  split.
  - destruct Hcases as [-> | (pk & r & a & ->)]; [by left|].
    pose proof (sendUSDCPayment_outcomes chain pk r a) as H.
    destruct (walletAddress chain pk).
    + destruct H as [_ [H | [e H]]];
        destruct (sendUSDCPayment chain pk r a) as [[hash|e'|code] t]; cbn in *;
        simplify_eq; eauto.
    + rewrite H. eauto.
  - destruct Hcases as [-> | (pk & r & a & ->)]; [by left|].
    pose proof (sendUSDCPayment_outcomes chain pk r a) as H.
    destruct (walletAddress chain pk).
    + destruct H as [H _].
      destruct (sendUSDCPayment chain pk r a) as [[hash|e'|code] t]; cbn in *; eauto.
    + rewrite H. eauto.
Qed.

(** X19. A run of the script that is given a private key, finds
    ALCHEMY_API_KEY and a recipient, and gets past both balance checks ends
    with the ReferenceError handed to [console.error]: the process is not
    ended by [process.exit(1)], and the only effect is the balance query. *)
Theorem script_logs_reference_error (scaled : string -> Amount) (proc : Process)
    (chain : Chain) (privateKey recipient senderAddress : string)
    (balanceData tokenBalances balance tokenBalance : JsVal)
    (balanceInSmallestUnit amountInSmallestUnit : Z) :
  argv proc !! 2%nat = Some privateKey ->
  privateKey <> "" ->
  nonEmpty (env proc !! "ALCHEMY_API_KEY") = true ->
  orElse (argv proc !! 3%nat) (env proc !! "PAYMENT_ADDRESS") = Some recipient ->
  recipient <> "" ->
  scaled (default "0.01" (orElse (argv proc !! 4%nat) (Some "0.01")))
  = Units amountInSmallestUnit ->
  walletAddress chain privateKey = Normal senderAddress ->
  getTokenBalances chain senderAddress [USDC_CONTRACT] = Normal balanceData ->
  member balanceData "tokenBalances" = Normal tokenBalances ->
  first tokenBalances = Normal balance ->
  member balance "tokenBalance" = Normal tokenBalance ->
  isString tokenBalance "addr" = false ->
  isString tokenBalance "0x0" = false ->
  BigInt tokenBalance = Normal balanceInSmallestUnit ->
  amountInSmallestUnit <= balanceInSmallestUnit ->
  script scaled proc chain
  = (ErrorLogged (ReferenceError "TRANSFER_FUNCTION_SIGNATURE is not defined"),
     [BalanceQuery senderAddress [USDC_CONTRACT]]).
Proof.
  intros Hpk Hne Hkey Hrec Hrne Hamount Hw Hb Hts Hfst Htb Haddr Hzero Hbig Hle.
  unfold script, main. rewrite Hpk, Hkey, Hrec, Hamount.
  destruct privateKey as [|c pk]; [done|]. destruct recipient as [|c' r]; [done|]. cbn.
  unfold sendUSDCPayment. stop_at_signature. unfold_script.
  rewrite Hw, Hb, Hts, Hfst, Htb, Haddr, Hzero, Hbig. cbn.
  by destruct (Z.gtb_spec amountInSmallestUnit balanceInSmallestUnit); [lia|].
Qed.

Lemma script_logs_reference_error_witness :
  argv (Examples.process ["0xYourPrivateKey"; Examples.payTo; "2.5"]
          [("ALCHEMY_API_KEY", "key")]) !! 2%nat = Some "0xYourPrivateKey" /\
  nonEmpty (env (Examples.process ["0xYourPrivateKey"; Examples.payTo; "2.5"]
                   [("ALCHEMY_API_KEY", "key")]) !! "ALCHEMY_API_KEY") = true /\
  BigInt (JStr "0x989680") = Normal 10000000 /\
  2500000 <= 10000000 /\
  script Examples.scaled
    (Examples.process ["0xYourPrivateKey"; Examples.payTo; "2.5"] [("ALCHEMY_API_KEY", "key")])
    Examples.chain
  = (ErrorLogged (ReferenceError "TRANSFER_FUNCTION_SIGNATURE is not defined"),
     [BalanceQuery "7xKXtg2CW87d97TXJSDpbD5jBkheTqA83TZRuJosgAsU" [USDC_CONTRACT]]).
Proof.
  do 3 (split; [reflexivity|]). split; [lia|].
  refine (script_logs_reference_error Examples.scaled
            (Examples.process ["0xYourPrivateKey"; Examples.payTo; "2.5"]
               [("ALCHEMY_API_KEY", "key")])
            Examples.chain "0xYourPrivateKey" Examples.payTo _ _ _ _ (JStr "0x989680")
            10000000 2500000
            eq_refl _ eq_refl eq_refl _ eq_refl eq_refl eq_refl eq_refl eq_refl eq_refl
            eq_refl eq_refl eq_refl _); [discriminate|discriminate|lia].
Defined.

End SendPaymentFacts.
